(** * ThreeSistersSVF: a three-band state-variable filter and its facades

    A shallow embedding of

    - [ThreeSistersSVFProcessor] (src/audio/ThreeSistersSVF.js, the text of the
      AudioWorklet processor): the per-sample difference equations, the
      coefficient cache with its dirty flag, and the message handler;
    - [ThreeSistersSVF] (same file): the node that owns the options record and
      talks to the processor through the message port;
    - [SimpleThreeBandFilter]: the bank of three band-pass stages that is used
      when no AudioWorklet is available;
    - [resolveBaseAudioContext] (src/utils/audioContext.js), the part of
      old-script.js that builds, tunes and mixes the synth filter, and
      [mapValue] and [mapLayerFilterValue].

    Numbers.  A JavaScript number is an IEEE-754 double.  The embedding
    reads the arithmetic of the code over the real numbers [R]: [Math.max],
    [Math.min], [Math.sin] and [Math.PI] are [Rmax], [Rmin], [sin] and [PI].
    NaN, the infinities and rounding are outside the model, and every
    statement below is about this exact reading of the code.

    Effects.  The processor is a record threaded through [onmessage] and
    [process], which run one at a time in the worklet scope.  The methods of
    the two nodes return the new [this] together with the list of calls they
    make into the host.  [_initWorklet] is asynchronous: it is modelled in
    two parts, up to its [await] and from there on, and the answers of the
    host to its calls (a promise that rejects, a constructor that throws)
    are arguments. *)

From Stdlib Require Import Reals Lra Lia PeanoNat List String Bool.
Import ListNotations.

Local Open Scope string_scope.
Local Open Scope list_scope.
Local Open Scope R_scope.

(** ** The [Math] namespace *)

Module Math.

Definition max (a b : R) : R := Rmax a b.
Definition min (a b : R) : R := Rmin a b.
Definition sin (x : R) : R := Rtrigo_def.sin x.
Definition PI : R := Rtrigo1.PI.

End Math.

Arguments Math.sin : simpl never.
Arguments Math.PI : simpl never.

(** ** ThreeSistersSVFProcessor *)

Module Processor.

(** The [data] object of a port message.  A field that is [undefined]
    (absent) is [None]. *)
Record Message : Type := mkMessage {
  type     : string;
  center   : option R;
  span     : option R;
  q        : option R;
  feedback : option R
}.

(** The fields of [this]. *)
Record t : Type := mk {
  _lowS1 : R;    _lowS2 : R;
  _centreS1 : R; _centreS2 : R;
  _highS1 : R;   _highS2 : R;
  _lowAlpha1 : R;
  _centreAlpha1 : R;
  _highAlpha1 : R;
  _alpha2 : R;
  _feedback : R;
  _span : R;
  _centreFreq : R;
  _sampleRate : R;
  _recalc : bool
}.

(** One entry of [parameterDescriptors]; every entry has the automation
    rate k-rate. *)
Record Descriptor : Type := mkDescriptor {
  name         : string;
  defaultValue : R;
  minValue     : R;
  maxValue     : R
}.

Definition parameterDescriptors : list Descriptor :=
  [ mkDescriptor "center" 600 20 20000;
    mkDescriptor "span" 300 0 10000;
    mkDescriptor "q" 8 0.1 100;
    mkDescriptor "feedback" 0.05 0.0 1.0 ].

(** [constructor (options)]; [sampleRate] is the global of the worklet
    scope. *)
Definition constructor (sampleRate : R) : t :=
  {| _lowS1 := 0;    _lowS2 := 0;
     _centreS1 := 0; _centreS2 := 0;
     _highS1 := 0;   _highS2 := 0;
     _lowAlpha1 := 0;
     _centreAlpha1 := 0;
     _highAlpha1 := 0;
     _alpha2 := 1 / 8;
     _feedback := 0.05;
     _span := 300;
     _centreFreq := 600;
     _sampleRate := sampleRate;
     _recalc := true |}.

(** Field updates, one per assigned field. *)
Definition set_centreFreq (v : R) (this : t) : t :=
  mk (_lowS1 this) (_lowS2 this) (_centreS1 this) (_centreS2 this)
     (_highS1 this) (_highS2 this)
     (_lowAlpha1 this) (_centreAlpha1 this) (_highAlpha1 this)
     (_alpha2 this) (_feedback this) (_span this) v
     (_sampleRate this) (_recalc this).

Definition set_span (v : R) (this : t) : t :=
  mk (_lowS1 this) (_lowS2 this) (_centreS1 this) (_centreS2 this)
     (_highS1 this) (_highS2 this)
     (_lowAlpha1 this) (_centreAlpha1 this) (_highAlpha1 this)
     (_alpha2 this) (_feedback this) v (_centreFreq this)
     (_sampleRate this) (_recalc this).

Definition set_alpha2 (v : R) (this : t) : t :=
  mk (_lowS1 this) (_lowS2 this) (_centreS1 this) (_centreS2 this)
     (_highS1 this) (_highS2 this)
     (_lowAlpha1 this) (_centreAlpha1 this) (_highAlpha1 this)
     v (_feedback this) (_span this) (_centreFreq this)
     (_sampleRate this) (_recalc this).

Definition set_feedback (v : R) (this : t) : t :=
  mk (_lowS1 this) (_lowS2 this) (_centreS1 this) (_centreS2 this)
     (_highS1 this) (_highS2 this)
     (_lowAlpha1 this) (_centreAlpha1 this) (_highAlpha1 this)
     (_alpha2 this) v (_span this) (_centreFreq this)
     (_sampleRate this) (_recalc this).

Definition set_recalc (b : bool) (this : t) : t :=
  mk (_lowS1 this) (_lowS2 this) (_centreS1 this) (_centreS2 this)
     (_highS1 this) (_highS2 this)
     (_lowAlpha1 this) (_centreAlpha1 this) (_highAlpha1 this)
     (_alpha2 this) (_feedback this) (_span this) (_centreFreq this)
     (_sampleRate this) b.

Definition set_alpha1 (lowA centreA highA : R) (this : t) : t :=
  mk (_lowS1 this) (_lowS2 this) (_centreS1 this) (_centreS2 this)
     (_highS1 this) (_highS2 this)
     lowA centreA highA
     (_alpha2 this) (_feedback this) (_span this) (_centreFreq this)
     (_sampleRate this) (_recalc this).

(** [if (data.f !== undefined) assign]. *)
Definition if_defined (f : option R) (assign : R -> t -> t) (this : t) : t :=
  match f with
  | Some v => assign v this
  | None => this
  end.

(** [this.port.onmessage = (event) => { ... }], applied to [event.data]. *)
Definition onmessage (data : Message) (this : t) : t :=
  if String.eqb (type data) "update" then
    let this := if_defined (center data) set_centreFreq this in
    let this := if_defined (span data) set_span this in
    let this := if_defined (q data)
                  (fun v => set_alpha2 (1 / Math.max 0.0001 v)) this in
    let this := if_defined (feedback data) set_feedback this in
    set_recalc true this
  else this.

(** The three local constants [lowF], [centre], [highF] of
    [_updateCoefficients]. *)
Record Freqs : Type := mkFreqs { lowF : R; centre : R; highF : R }.

Definition band_freqs (this : t) : Freqs :=
  let nyq := _sampleRate this * 0.45 in
  let centre := Math.min nyq (Math.max 20 (_centreFreq this)) in
  let lowF := Math.min nyq (Math.max 20 (centre - _span this)) in
  let highF := Math.min nyq (Math.max 20 (centre + _span this)) in
  mkFreqs lowF centre highF.

Definition _updateCoefficients (this : t) : t :=
  let f := band_freqs this in
  let this :=
    set_alpha1 (2 * Math.sin (Math.PI * lowF f / _sampleRate this))
               (2 * Math.sin (Math.PI * centre f / _sampleRate this))
               (2 * Math.sin (Math.PI * highF f / _sampleRate this))
               this in
  set_recalc false this.

(** The six local copies of the integrator states in [process]. *)
Record Locals : Type := mkLocals {
  lowS1 : R;    lowS2 : R;
  centreS1 : R; centreS2 : R;
  highS1 : R;   highS2 : R
}.

(** The body of the [for] loop, for the sample [x = inCh[i]]: the new
    values of the six locals and the value written to [outCh[i]].  An
    assignment to a local is a [let] that rebinds the name. *)
Definition loop_body (lowA centreA highA alpha2 fb : R)
    (l : Locals) (x : R) : Locals * R :=
  let lowS1 := lowS1 l in       let lowS2 := lowS2 l in
  let centreS1 := centreS1 l in let centreS2 := centreS2 l in
  let highS1 := highS1 l in     let highS2 := highS2 l in
  let sumBP := lowS1 + centreS1 + highS1 in
  let sharedDrive := x + sumBP * fb in
  let driveLow := sharedDrive + highS1 * fb in
  let driveCentre := sharedDrive + lowS1 * fb in
  let driveHigh := sharedDrive + centreS1 * fb in
  (* Low core *)
  let hp := driveLow - lowS2 - alpha2 * lowS1 in
  let bp := lowA * hp + lowS1 in
  let lp := lowA * bp + lowS2 in
  let lowS1 := bp in
  let lowS2 := lp in
  let lowBP := bp in
  (* Centre core *)
  let hp := driveCentre - centreS2 - alpha2 * centreS1 in
  let bp := centreA * hp + centreS1 in
  let lp := centreA * bp + centreS2 in
  let centreS1 := bp in
  let centreS2 := lp in
  let centreBP := bp in
  (* High core *)
  let hp := driveHigh - highS2 - alpha2 * highS1 in
  let bp := highA * hp + highS1 in
  let lp := highA * bp + highS2 in
  let highS1 := bp in
  let highS2 := lp in
  let highBP := bp in
  (mkLocals lowS1 lowS2 centreS1 centreS2 highS1 highS2,
   (lowBP + centreBP + highBP) / 3).

(** [for (let i = 0; i < inCh.length; i++) { ... }]: the locals after the
    last sample and the values written to [outCh[0]], [outCh[1]], ... *)
Fixpoint loop (lowA centreA highA alpha2 fb : R)
    (l : Locals) (inCh : list R) : Locals * list R :=
  match inCh with
  | [] => (l, [])
  | x :: inCh' =>
      let '(l1, y) := loop_body lowA centreA highA alpha2 fb l x in
      let '(l2, ys) := loop lowA centreA highA alpha2 fb l1 inCh' in
      (l2, y :: ys)
  end.

Definition load_locals (this : t) : Locals :=
  mkLocals (_lowS1 this) (_lowS2 this) (_centreS1 this) (_centreS2 this)
           (_highS1 this) (_highS2 this).

Definition store_locals (l : Locals) (this : t) : t :=
  mk (lowS1 l) (lowS2 l) (centreS1 l) (centreS2 l) (highS1 l) (highS2 l)
     (_lowAlpha1 this) (_centreAlpha1 this) (_highAlpha1 this)
     (_alpha2 this) (_feedback this) (_span this) (_centreFreq this)
     (_sampleRate this) (_recalc this).

(** What one call of [process] leaves behind: the processor, the samples
    written to [outputs[0][0]] (in index order; none when the call returns
    before the loop) and the returned boolean.  [outputs] is only written
    to, so it is a result here and not an argument. *)
Record Outcome : Type := mkOutcome {
  after    : t;
  written  : list R;
  returned : bool
}.

(** The [parameters] argument: for each descriptor name the array of
    values of that AudioParam for the quantum. *)
Definition AudioParams : Type := list (string * list R).

(** [process (inputs, outputs, parameters)].  [inputs] is the list of
    inputs, an input is the list of its channels, a channel the list of
    its samples.  [!input || input.length === 0] holds when [inputs[0]] is
    [undefined] or has no channel. *)
Definition process (this : t) (inputs : list (list (list R)))
    (parameters : AudioParams) : Outcome :=
  match nth_error inputs 0 with
  | None | Some [] => mkOutcome this [] true
  | Some (inCh :: _) =>
      let this := if _recalc this then _updateCoefficients this else this in
      let '(l, out) :=
        loop (_lowAlpha1 this) (_centreAlpha1 this) (_highAlpha1 this)
             (_alpha2 this) (_feedback this) (load_locals this) inCh in
      mkOutcome (store_locals l this) out true
  end.

End Processor.

(** ** ThreeSistersSVF, the node around the processor *)

Module SVF.

(** [this._options]. *)
Record Options : Type := mkOptions {
  center   : R;
  span     : R;
  q        : R;
  feedback : R
}.

(** The [options] argument of the constructor; a missing key is [None]. *)
Record OptionsArg : Type := mkOptionsArg {
  arg_center   : option R;
  arg_span     : option R;
  arg_q        : option R;
  arg_feedback : option R
}.

Definition defaults : Options :=
  {| center := 600; span := 300; q := 8; feedback := 0.05 |}.

Definition or_default (o : option R) (d : R) : R :=
  match o with Some v => v | None => d end.

(** [Object.assign({}, defaults, options)]. *)
Definition assign (d : Options) (o : OptionsArg) : Options :=
  {| center   := or_default (arg_center o) (center d);
     span     := or_default (arg_span o) (span d);
     q        := or_default (arg_q o) (q d);
     feedback := or_default (arg_feedback o) (feedback d) |}.

(** The AudioWorkletNode held in [this._workletNode], with the
    [parameterData] it was created with. *)
Record AudioWorkletNode : Type := mkNode { parameterData : Options }.

(** Calls into the host (Web Audio and Tone.js), in program order. *)
Inductive Effect : Type :=
| SetParam (name : string) (value : R)
    (** [node.parameters.get(name).value = value] *)
| PostMessage (data : Processor.Message)
    (** [node.port.postMessage(data)] *)
| AddModule (context : nat)
    (** [await context.audioWorklet.addModule(url)] *)
| NewNode (context : nat)
    (** [new AudioWorkletNode(context, 'three-sisters-svf-processor',
        { ..., parameterData })] *)
| ConnectInput
    (** [this.input.connect(node)] *)
| ConnectOutput
    (** [node.connect(this.output)] *)
| SuperDispose
    (** [super.dispose()] *)
| DisconnectInput
    (** [this.input.disconnect()] *)
| DisconnectNode
    (** [node.disconnect()] *).

Record t : Type := mk {
  _options     : Options;
  _workletNode : option AudioWorkletNode
}.

(** What a method throws: the [Error] it creates itself, or whatever the
    host call that failed threw. *)
Inductive Exception : Type :=
| Error (message : string)
| Raised (call : Effect).

(** A method either completes, with the new [this] and the host calls it
    made, or throws: then [this] is as the method left it and the host
    calls are those made up to the throw, ending with the one that failed
    when the throw comes from the host. *)
Inductive Completion : Type :=
| Normal (this : t) (effects : list Effect)
| Throw (e : Exception) (this : t) (effects : list Effect).

Definition effects_of (c : Completion) : list Effect :=
  match c with
  | Normal _ effects => effects
  | Throw _ _ effects => effects
  end.

Definition this_of (c : Completion) : t :=
  match c with
  | Normal this _ => this
  | Throw _ this _ => this
  end.

(** The host calls [before], then the completion [c]. *)
Definition preceded (before : list Effect) (c : Completion) : Completion :=
  match c with
  | Normal this effects => Normal this (before ++ effects)
  | Throw e this effects => Throw e this (before ++ effects)
  end.

(** [constructor (options = {})] up to the call of [_initWorklet]. *)
Definition constructor (options : OptionsArg) : t :=
  {| _options := assign defaults options; _workletNode := None |}.

(** The messages built by the setters and by [dispose]. *)
Definition update_center (v : R) : Processor.Message :=
  Processor.mkMessage "update" (Some v) None None None.
Definition update_span (v : R) : Processor.Message :=
  Processor.mkMessage "update" None (Some v) None None.
Definition update_q (v : R) : Processor.Message :=
  Processor.mkMessage "update" None None (Some v) None.
Definition update_feedback (v : R) : Processor.Message :=
  Processor.mkMessage "update" None None None (Some v).

(** The context that [_initWorklet] reads ([Tone.getContext()]; in
    old-script.js, [resolveBaseAudioContext()]): which object it is, and
    whether its [audioWorklet] is truthy. *)
Record Context : Type := mkContext {
  context_id   : nat;
  audioWorklet : bool
}.

(** How the host answers the calls of one [_initWorklet]: whether
    [addModule] resolves, whether [new AudioWorkletNode] returns, and
    whether each of the two [connect] calls returns.  The code tests none
    of this beforehand, so every answer is possible whatever the static
    flag says. *)
Record InitHost : Type := mkInitHost {
  addModuleOk     : bool;
  newNodeOk       : bool;
  connectInputOk  : bool;
  connectOutputOk : bool
}.

(** [context && context.audioWorklet]. *)
Definition supported (context : option Context) : bool :=
  match context with
  | Some c => audioWorklet c
  | None => false
  end.

Definition not_supported : Exception :=
  Error "ThreeSistersSVF: AudioWorklet is not supported in this environment".

(** [_initWorklet] from [this._workletNode = new AudioWorkletNode(...)] to
    its end.  The node is stored as soon as its constructor has returned,
    so a [connect] that throws leaves it in [this]. *)
Definition _initWorklet_node (c : Context) (host : InitHost) (this : t)
    : Completion :=
  let context := context_id c in
  if negb (newNodeOk host) then
    Throw (Raised (NewNode context)) this [NewNode context]
  else
    let this := mk (_options this) (Some (mkNode (_options this))) in
    if negb (connectInputOk host) then
      Throw (Raised ConnectInput) this [NewNode context; ConnectInput]
    else if negb (connectOutputOk host) then
      Throw (Raised ConnectOutput) this
        [NewNode context; ConnectInput; ConnectOutput]
    else
      Normal this [NewNode context; ConnectInput; ConnectOutput].

(** [async _initWorklet ()] is suspended at [await addModule(url)], which
    it reaches when the context has an [audioWorklet] and the static
    [ThreeSistersSVF._workletLoaded] is false.  Until the promise of
    [addModule] settles, other methods of the node may run. *)
Inductive Started : Type :=
| Done (c : Completion)
    (** it ran to its end, or threw, without a pause *)
| Awaiting (c : Context) (effects : list Effect)
    (** it is suspended, after the host calls [effects] *).

(** [_initWorklet] up to the [await]. *)
Definition _initWorklet_start (context : option Context)
    (workletLoaded : bool) (host : InitHost) (this : t) : Started :=
  match context with
  | None => Done (Throw not_supported this [])
  | Some c =>
      if negb (audioWorklet c) then Done (Throw not_supported this [])
      else if workletLoaded then Done (_initWorklet_node c host this)
      else Awaiting c [AddModule (context_id c)]
  end.

(** [_initWorklet] from the [await] on: [this] and [workletLoaded] are the
    node and the static flag as they are when the promise of [addModule]
    settles.  The host calls listed are those made from there on,
    [addModule] itself having been called before the pause.  The result
    carries the new value of the flag. *)
Definition _initWorklet_resume (c : Context) (workletLoaded : bool)
    (host : InitHost) (this : t) : Completion * bool :=
  if negb (addModuleOk host) then
    (Throw (Raised (AddModule (context_id c))) this [], workletLoaded)
  else (_initWorklet_node c host this, true).

(** [_initWorklet] when nothing else runs while it is suspended, as when
    the caller awaits [ready()] at once.  The result carries the new value
    of the static flag. *)
Definition _initWorklet (context : option Context) (workletLoaded : bool)
    (host : InitHost) (this : t) : Completion * bool :=
  match _initWorklet_start context workletLoaded host this with
  | Done r => (r, workletLoaded)
  | Awaiting c before =>
      let '(r, workletLoaded) :=
        _initWorklet_resume c workletLoaded host this in
      (preceded before r, workletLoaded)
  end.

(** [get center ()] and the three others. *)
Definition get_center (this : t) : R := center (_options this).
Definition get_span (this : t) : R := span (_options this).
Definition get_q (this : t) : R := q (_options this).
Definition get_feedback (this : t) : R := feedback (_options this).

(** [if (this._workletNode) { parameters.get(name).value = value;
    port.postMessage(data) }]. *)
Definition notify (this : t) (name : string) (value : R)
    (data : Processor.Message) : list Effect :=
  match _workletNode this with
  | Some _ => [SetParam name value; PostMessage data]
  | None => []
  end.

(** [set center (value)] and the three others. *)
Definition set_center (value : R) (this : t) : t * list Effect :=
  let o := _options this in
  let this := mk (mkOptions value (span o) (q o) (feedback o))
                 (_workletNode this) in
  (this, notify this "center" value (update_center value)).

Definition set_span (value : R) (this : t) : t * list Effect :=
  let o := _options this in
  let this := mk (mkOptions (center o) value (q o) (feedback o))
                 (_workletNode this) in
  (this, notify this "span" value (update_span value)).

Definition set_q (value : R) (this : t) : t * list Effect :=
  let o := _options this in
  let this := mk (mkOptions (center o) (span o) value (feedback o))
                 (_workletNode this) in
  (this, notify this "q" value (update_q value)).

Definition set_feedback (value : R) (this : t) : t * list Effect :=
  let o := _options this in
  let this := mk (mkOptions (center o) (span o) (q o) value)
                 (_workletNode this) in
  (this, notify this "feedback" value (update_feedback value)).

(** [update (center, span)]. *)
Definition update (c s : R) (this : t) : t * list Effect :=
  let '(this, e1) := set_center c this in
  let '(this, e2) := set_span s this in
  (this, e1 ++ e2).

(** [dispose ()]. *)
Definition dispose (this : t) : t * list Effect :=
  match _workletNode this with
  | Some _ =>
      (mk (_options this) None,
       [SuperDispose; PostMessage (update_feedback 0);
        DisconnectInput; DisconnectNode])
  | None => (this, [SuperDispose])
  end.

(** The four parameters, to speak about the setters uniformly. *)
Inductive Param : Type := Center | Span | Q | Feedback.

Definition name (p : Param) : string :=
  match p with
  | Center => "center" | Span => "span" | Q => "q" | Feedback => "feedback"
  end.

Definition set (p : Param) : R -> t -> t * list Effect :=
  match p with
  | Center => set_center | Span => set_span
  | Q => set_q | Feedback => set_feedback
  end.

Definition get (p : Param) : t -> R :=
  match p with
  | Center => get_center | Span => get_span
  | Q => get_q | Feedback => get_feedback
  end.

Definition message (p : Param) : R -> Processor.Message :=
  match p with
  | Center => update_center | Span => update_span
  | Q => update_q | Feedback => update_feedback
  end.

(** Setter calls one after the other, [(p, v)] standing for
    [this.p = v]: the node at the end and the host calls of all of them. *)
Fixpoint set_all (calls : list (Param * R)) (this : t) : t * list Effect :=
  match calls with
  | [] => (this, [])
  | (p, v) :: calls =>
      let r := set p v this in
      let r' := set_all calls (fst r) in
      (fst r', snd r ++ snd r')
  end.

(** One [new ThreeSistersSVF(options)] whose [ready()] is awaited: the
    context it finds, the answers of the host, the options. *)
Record Init : Type := mkInit {
  init_context : option Context;
  init_host    : InitHost;
  init_options : OptionsArg
}.

(** Nodes constructed one after the other, each awaited before the next is
    constructed: the host calls of all the [_initWorklet], in order, and
    the static flag at the end. *)
Fixpoint construct_all (inits : list Init) (workletLoaded : bool)
    : list Effect * bool :=
  match inits with
  | [] => ([], workletLoaded)
  | i :: inits =>
      let r := _initWorklet (init_context i) workletLoaded (init_host i)
                 (constructor (init_options i)) in
      let r' := construct_all inits (snd r) in
      (effects_of (fst r) ++ fst r', snd r')
  end.

End SVF.

(** ** SimpleThreeBandFilter, the bank of three band-pass stages *)

Module Simple.

(** [this._options]; the class has no feedback. *)
Record Options : Type := mkOptions {
  center : R;
  span   : R;
  q      : R
}.

Record OptionsArg : Type := mkOptionsArg {
  arg_center : option R;
  arg_span   : option R;
  arg_q      : option R
}.

Definition defaults : Options := {| center := 600; span := 300; q := 8 |}.

(** A [Tone.Filter] of type band-pass: the two values the class writes,
    [frequency.value] and [Q.value]. *)
Record Filter : Type := mkFilter { frequency : R; Q : R }.

Record t : Type := mk {
  _options : Options;
  _low     : Filter;
  _centre  : Filter;
  _high    : Filter;
  _lowGain : R; _centreGain : R; _highGain : R
}.

(** Host calls of [dispose]. *)
Inductive Effect : Type :=
| SuperDispose
| DisposeNode (which : string).

Section Host.

(** [resolveBaseAudioContext()]: [None] for [null], otherwise the
    [sampleRate] of the context that was found. *)
Variable raw : option R.

(** [raw && raw.sampleRate ? raw.sampleRate / 2 : 20000]; the number 0
    is falsy. *)
Definition nyquist : R :=
  match raw with
  | Some sampleRate =>
      if Req_dec_T sampleRate 0 then 20000 else sampleRate / 2
  | None => 20000
  end.

Definition _updateFrequencies (this : t) : t :=
  let centre := Math.min nyquist (Math.max 20 (center (_options this))) in
  let span := Math.max 0 (span (_options this)) in
  let low := Math.max 20 (centre - span) in
  let high := Math.min nyquist (centre + span) in
  mk (_options this)
     (mkFilter low (Q (_low this)))
     (mkFilter centre (Q (_centre this)))
     (mkFilter high (Q (_high this)))
     (_lowGain this) (_centreGain this) (_highGain this).

Definition _updateQ (this : t) : t :=
  let q := Math.max 0.5 (q (_options this)) in
  mk (_options this)
     (mkFilter (frequency (_low this)) q)
     (mkFilter (frequency (_centre this)) q)
     (mkFilter (frequency (_high this)) q)
     (_lowGain this) (_centreGain this) (_highGain this).

Definition or_default (o : option R) (d : R) : R :=
  match o with Some v => v | None => d end.

(** [constructor(options = {})].  A new [Tone.Filter] has Q 1 until
    [_updateQ] writes it. *)
Definition constructor (options : OptionsArg) : t :=
  let o := {| center := or_default (arg_center options) (center defaults);
              span   := or_default (arg_span options) (span defaults);
              q      := or_default (arg_q options) (q defaults) |} in
  let filter := mkFilter (center o) 1 in
  _updateQ (_updateFrequencies
              (mk o filter filter filter (1 / 3) (1 / 3) (1 / 3))).

Definition get_center (this : t) : R := center (_options this).
Definition get_span (this : t) : R := span (_options this).
Definition get_q (this : t) : R := q (_options this).

Definition with_options (o : Options) (this : t) : t :=
  mk o (_low this) (_centre this) (_high this)
     (_lowGain this) (_centreGain this) (_highGain this).

Definition set_center (value : R) (this : t) : t :=
  let o := _options this in
  _updateFrequencies (with_options (mkOptions value (span o) (q o)) this).

Definition set_span (value : R) (this : t) : t :=
  let o := _options this in
  _updateFrequencies (with_options (mkOptions (center o) value (q o)) this).

Definition set_q (value : R) (this : t) : t :=
  let o := _options this in
  _updateQ (with_options (mkOptions (center o) (span o) value) this).

(** [update(center, span)], an [undefined] argument being [None]. *)
Definition update (c s : option R) (this : t) : t :=
  let this := match c with Some v => set_center v this | None => this end in
  match s with Some v => set_span v this | None => this end.

(** [dispose()]: every node is disposed, no field of [this] is
    assigned. *)
Definition dispose (this : t) : t * list Effect :=
  (this,
   SuperDispose ::
   map DisposeNode
     ["_low"; "_centre"; "_high"; "_lowGain"; "_centreGain"; "_highGain";
      "input"; "output"]).

End Host.

End Simple.

(** ** The specification's formulas

    Definitions written from the words of the specification, to be compared
    with the definitions above, which are written from the code. *)

Module Spec.

(** [clamp(x, lo, hi)]. *)
Definition clamp (x lo hi : R) : R := Rmin hi (Rmax lo x).

(** One band: the two accumulators. *)
Record Band : Type := mkBand { s1 : R; s2 : R }.

Record Bands : Type := mkBands { low : Band; centre : Band; high : Band }.

Record Coeffs : Type := mkCoeffs {
  lowA : R; centreA : R; highA : R; alpha2 : R
}.

(** For each band: [hp = drive - s2 - α2·s1]; [bp = α1·hp + s1];
    [lp = α1·bp + s2]; then [s1 ← bp], [s2 ← lp]. *)
Definition band_step (alpha1 alpha2 drive : R) (b : Band) : Band :=
  let hp := drive - s2 b - alpha2 * s1 b in
  let bp := alpha1 * hp + s1 b in
  let lp := alpha1 * bp + s2 b in
  mkBand bp lp.

(** One sample: the drives are formed from the old [s1] values, each band
    is stepped, and the output is the average of the three [bp]. *)
Definition sample (c : Coeffs) (fb : R) (b : Bands) (x : R) : Bands * R :=
  let sumBP := s1 (low b) + s1 (centre b) + s1 (high b) in
  let sharedDrive := x + sumBP * fb in
  let driveLow := sharedDrive + s1 (high b) * fb in
  let driveCentre := sharedDrive + s1 (low b) * fb in
  let driveHigh := sharedDrive + s1 (centre b) * fb in
  let low' := band_step (lowA c) (alpha2 c) driveLow (low b) in
  let centre' := band_step (centreA c) (alpha2 c) driveCentre (centre b) in
  let high' := band_step (highA c) (alpha2 c) driveHigh (high b) in
  (mkBands low' centre' high', (s1 low' + s1 centre' + s1 high') / 3).

(** A block: the samples in order, the state carried from one to the
    next. *)
Fixpoint block (c : Coeffs) (fb : R) (b : Bands) (xs : list R)
    : Bands * list R :=
  match xs with
  | [] => (b, [])
  | x :: xs' =>
      let r := sample c fb b x in
      let r' := block c fb (fst r) xs' in
      (fst r', snd r :: snd r')
  end.

End Spec.

(** ** The specification's claims, as predicates *)

Module Claim.

(** Band frequencies as the specification derives them: all three from
    the unclamped [centerFreq]. *)
Definition band_freqs (sampleRate centerFreq span : R) : Processor.Freqs :=
  Processor.mkFreqs
    (Spec.clamp (centerFreq - span) 20 (0.45 * sampleRate))
    (Spec.clamp centerFreq 20 (0.45 * sampleRate))
    (Spec.clamp (centerFreq + span) 20 (0.45 * sampleRate)).

(** [20 ≤ low ≤ centre ≤ high ≤ 0.45·sampleRate]. *)
Definition ordered (sampleRate : R) (f : Processor.Freqs) : Prop :=
  20 <= Processor.lowF f /\
  Processor.lowF f <= Processor.centre f /\
  Processor.centre f <= Processor.highF f /\
  Processor.highF f <= 0.45 * sampleRate.

(** The two together, for the processor [this]. *)
Definition band_claim (this : Processor.t) : Prop :=
  Processor.band_freqs this =
    band_freqs (Processor._sampleRate this) (Processor._centreFreq this)
      (Processor._span this)
  /\ ordered (Processor._sampleRate this) (Processor.band_freqs this).

(** [α₂ = 1/max(q, qMin)]. *)
Definition alpha2 (qMin q : R) : R := 1 / Rmax q qMin.

(** The safe operating range of each parameter of the real-time path:
    centre in [20, 0.45·sampleRate], span at least 0, q at least 0.1,
    feedback in [0, 1]. *)
Definition clamp_param (sampleRate : R) (p : SVF.Param) (v : R) : R :=
  match p with
  | SVF.Center => Spec.clamp v 20 (0.45 * sampleRate)
  | SVF.Span => Rmax 0 v
  | SVF.Q => Rmax v 0.1
  | SVF.Feedback => Spec.clamp v 0 1
  end.


End Claim.

(** ** Quantities used to state what the code does *)

Module Dsp.

(** The band states and the cached coefficients of a processor. *)
Definition bands (p : Processor.t) : Spec.Bands :=
  Spec.mkBands
    (Spec.mkBand (Processor._lowS1 p) (Processor._lowS2 p))
    (Spec.mkBand (Processor._centreS1 p) (Processor._centreS2 p))
    (Spec.mkBand (Processor._highS1 p) (Processor._highS2 p)).

Definition coeffs (p : Processor.t) : Spec.Coeffs :=
  Spec.mkCoeffs (Processor._lowAlpha1 p) (Processor._centreAlpha1 p)
                (Processor._highAlpha1 p) (Processor._alpha2 p).


(** The processor as the loop of [process] sees it, after the test of the
    dirty flag: it holds the coefficients in effect for the block. *)
Definition at_block_start (p : Processor.t) : Processor.t :=
  if Processor._recalc p then Processor._updateCoefficients p else p.

(** The three [α₁] of a processor. *)
Definition alpha1s (p : Processor.t) : R * R * R :=
  (Processor._lowAlpha1 p, Processor._centreAlpha1 p,
   Processor._highAlpha1 p).

(** The locals of [process] when the loop reaches index [i] of [inCh]. *)
Definition locals_at (this : Processor.t) (inCh : list R) (i : nat)
    : Processor.Locals :=
  fst (Processor.loop
         (Processor._lowAlpha1 this) (Processor._centreAlpha1 this)
         (Processor._highAlpha1 this) (Processor._alpha2 this)
         (Processor._feedback this) (Processor.load_locals this)
         (firstn i inCh)).


(** The coefficients a block will use keep every [α₁α₂] within [0, 2]. *)
Definition tuned (this : Processor.t) : Prop :=
  let used := at_block_start this in
  0 <= Processor._lowAlpha1 used * Processor._alpha2 used <= 2
  /\ 0 <= Processor._centreAlpha1 used * Processor._alpha2 used <= 2
  /\ 0 <= Processor._highAlpha1 used * Processor._alpha2 used <= 2.



(** All six accumulators at 0, the state a processor is constructed
    with. *)
Definition at_rest : Spec.Bands :=
  Spec.mkBands (Spec.mkBand 0 0) (Spec.mkBand 0 0) (Spec.mkBand 0 0).


(** The coefficients for which the form of a band is positive definite:
    its discriminant is [(α₁ + α₂)² - 4]. *)
Definition damped (alpha1 alpha2 : R) : Prop :=
  0 < alpha1 /\ 0 < alpha2 /\ alpha1 + alpha2 < 2.



End Dsp.

(** ** Concrete processors and nodes *)

Module Example.

(** A processor at 48 kHz, as constructed. *)
Definition fresh : Processor.t := Processor.constructor 48000.

(** After the update [{center: 5, span: 20}]. *)
Definition low_centre : Processor.t :=
  Processor.onmessage
    (Processor.mkMessage "update" (Some 5) (Some 20) None None) fresh.

(** After the update [{span: -300}]. *)
Definition negative_span : Processor.t :=
  Processor.onmessage (SVF.update_span (-300)) fresh.

(** After the update [{q: 0.05}]. *)
Definition small_q : Processor.t :=
  Processor.onmessage (SVF.update_q 0.05) fresh.

(** Feedback set to 0, then one block holding the impulse [1], then one
    block holding a sample of silence. *)
Definition quiet : Processor.t :=
  Processor.onmessage (SVF.update_feedback 0) fresh.

Definition struck : Processor.t :=
  Processor.after (Processor.process quiet [[[1]]] []).






(** A node built with the default options, before and after
    [_initWorklet] has run in a host with AudioWorklet, and after
    [dispose]. *)
Definition built : SVF.t :=
  SVF.constructor (SVF.mkOptionsArg None None None None).

Definition ready : SVF.t :=
  SVF.mk SVF.defaults (Some (SVF.mkNode SVF.defaults)).

Definition disposed : SVF.t := fst (SVF.dispose ready).

(** A fallback bank built with the default options at 48 kHz. *)
Definition bank : Simple.t :=
  Simple.constructor (Some 48000) (Simple.mkOptionsArg None None None).

End Example.

(** ** resolveBaseAudioContext (src/utils/audioContext.js) *)

Module AudioContext.

(** An object is named by a number; [Heap] gives, for each object, what
    [resolveBaseAudioContext] and its callers read from it. *)
Definition ref : Type := nat.

Record Candidate : Type := mkCandidate {
  isAudioContext : bool;
    (** [(BaseAudioContextCtor && candidate instanceof BaseAudioContextCtor)
        || (OfflineAudioContextCtor && candidate instanceof
        OfflineAudioContextCtor)] *)
  rawContext : option ref;
  context    : option ref;
  _context   : option ref;
    (** the three properties that are followed; a falsy one is [None] *)
  sampleRate : R;
  audioWorklet : bool;
    (** [candidate.audioWorklet] is truthy *)
  addModuleIsFunction : bool
    (** [typeof candidate.audioWorklet.addModule === 'function'] *)
}.

Definition Heap : Type := ref -> Candidate.

(** [visited.has(candidate)]. *)
Definition has (visited : list ref) (candidate : ref) : bool :=
  existsb (Nat.eqb candidate) visited.

(** [if (x) queue.push(x)]. *)
Definition push_if (x : option ref) : list ref :=
  match x with Some r => [r] | None => [] end.

(** The objects pushed after [candidate] has been looked at. *)
Definition pushed (heap : Heap) (candidate : ref) : list ref :=
  push_if (rawContext (heap candidate))
  ++ push_if (context (heap candidate))
  ++ push_if (_context (heap candidate)).

(** [while (queue.length) { ... } return null;].  [None] is for a loop
    that has not ended after [fuel] iterations; [Some None] is the result
    [null]. *)
Fixpoint search (fuel : nat) (heap : Heap) (queue visited : list ref)
    : option (option ref) :=
  match fuel with
  | O => None
  | S fuel =>
      match queue with
      | [] => Some None
      | candidate :: queue =>
          if has visited candidate then search fuel heap queue visited
          else
            let visited := candidate :: visited in
            if isAudioContext (heap candidate) then Some (Some candidate)
            else search fuel heap (queue ++ pushed heap candidate) visited
      end
  end.

(** The queue before the loop.  [toneContext] is [Tone.context];
    [getContext] is [None] when [Tone.getContext] is not a function, and
    otherwise holds what the call returns. *)
Definition roots (toneContext : option ref) (getContext : option (option ref))
    : list ref :=
  push_if toneContext
  ++ match getContext with
     | Some ctx => push_if ctx
     | None => []
     end.

Definition resolveBaseAudioContext (fuel : nat) (heap : Heap)
    (toneContext : option ref) (getContext : option (option ref))
    : option (option ref) :=
  search fuel heap (roots toneContext getContext) [].

(** [y] can be reached from one of [from] along the three properties. *)
Inductive reachable (heap : Heap) (from : list ref) : ref -> Prop :=
| reach_root (r : ref) : In r from -> reachable heap from r
| reach_step (x y : ref) :
    reachable heap from x -> In y (pushed heap x) -> reachable heap from y.

(** Every object below [n] points below [n]. *)
Definition closed (heap : Heap) (n : nat) : Prop :=
  forall x y : ref, (x < n)%nat -> In y (pushed heap x) -> (y < n)%nat.

(** How many objects below [n] have not been visited. *)
Definition unvisited (n : nat) (visited : list ref) : nat :=
  List.length (filter (fun i => negb (has visited i)) (seq 0 n)).

(** What the loop keeps true: no visited object is an audio context, and
    whatever a visited object points to is visited or queued. *)
Definition explored (heap : Heap) (queue visited : list ref) : Prop :=
  (forall x, In x visited -> isAudioContext (heap x) = false)
  /\ (forall x y, In x visited -> In y (pushed heap x) ->
                  In y visited \/ In y queue).

End AudioContext.

(** ** The worklet scope: messages and quanta *)

Module Worklet.

(** The messages among the host calls of a method, in the order posted. *)
Definition posted (effects : list SVF.Effect) : list Processor.Message :=
  flat_map (fun e => match e with
                     | SVF.PostMessage data => [data]
                     | _ => []
                     end) effects.

(** The port hands each message to [onmessage], in order. *)
Definition deliver (messages : list Processor.Message) (p : Processor.t)
    : Processor.t :=
  fold_left (fun p data => Processor.onmessage data p) messages p.

(** One update that carries the fields of [m1] and of [m2], those of [m2]
    where both carry one. *)
Definition merge (m1 m2 : Processor.Message) : Processor.Message :=
  let later (a b : option R) := match b with Some _ => b | None => a end in
  Processor.mkMessage "update"
    (later (Processor.center m1) (Processor.center m2))
    (later (Processor.span m1) (Processor.span m2))
    (later (Processor.q m1) (Processor.q m2))
    (later (Processor.feedback m1) (Processor.feedback m2)).

(** What happens in the worklet scope: a message arrives or a quantum is
    rendered. *)
Inductive Event : Type :=
| Message (data : Processor.Message)
| Quantum (inputs : list (list (list R))) (parameters : Processor.AudioParams).

Definition step (p : Processor.t) (e : Event) : Processor.t :=
  match e with
  | Message data => Processor.onmessage data p
  | Quantum inputs parameters =>
      Processor.after (Processor.process p inputs parameters)
  end.

Definition run (events : list Event) (p : Processor.t) : Processor.t :=
  fold_left step events p.

(** What [_updateCoefficients] reads. *)
Definition tuning (p : Processor.t) : R * R * R :=
  (Processor._centreFreq p, Processor._span p, Processor._sampleRate p).

(** The cache is dirty, or it holds what [_updateCoefficients] would
    compute now. *)
Definition coherent (p : Processor.t) : Prop :=
  Processor._recalc p = true
  \/ Dsp.alpha1s p = Dsp.alpha1s (Processor._updateCoefficients p).

(** The six accumulators multiplied by [k], as locals of the loop and in
    the processor. *)
Definition scale_locals (k : R) (l : Processor.Locals) : Processor.Locals :=
  Processor.mkLocals
    (k * Processor.lowS1 l) (k * Processor.lowS2 l)
    (k * Processor.centreS1 l) (k * Processor.centreS2 l)
    (k * Processor.highS1 l) (k * Processor.highS2 l).

Definition scale (k : R) (p : Processor.t) : Processor.t :=
  Processor.store_locals (scale_locals k (Processor.load_locals p)) p.

End Worklet.

(** ** The bank, seen from outside *)

Module Bank.

(** The calls a user of [SimpleThreeBandFilter] can make. *)
Inductive Call : Type :=
| SetCenter (value : R)
| SetSpan (value : R)
| SetQ (value : R)
| Update (center span : option R)
| Dispose.

Definition call (raw : option R) (this : Simple.t) (c : Call) : Simple.t :=
  match c with
  | SetCenter v => Simple.set_center raw v this
  | SetSpan v => Simple.set_span raw v this
  | SetQ v => Simple.set_q v this
  | Update c s => Simple.update raw c s this
  | Dispose => fst (Simple.dispose this)
  end.

(** The three stage frequencies. *)
Definition freqs (this : Simple.t) : Processor.Freqs :=
  Processor.mkFreqs (Simple.frequency (Simple._low this))
                    (Simple.frequency (Simple._centre this))
                    (Simple.frequency (Simple._high this)).

(** [20 ≤ low ≤ centre ≤ high ≤ top]. *)
Definition ordered (top : R) (f : Processor.Freqs) : Prop :=
  20 <= Processor.lowF f
  /\ Processor.lowF f <= Processor.centre f
  /\ Processor.centre f <= Processor.highF f
  /\ Processor.highF f <= top.

(** A sequence of calls, each in the host as it is at that moment. *)
Definition run (calls : list (option R * Call)) (this : Simple.t)
    : Simple.t :=
  fold_left (fun this rc => call (fst rc) this (snd rc)) calls this.

(** The stages agree with the options and with each other: every Q is
    [max(0.5, q)], every gain is a third, and the three frequencies are at
    least 20 Hz and in order. *)
Definition settled (this : Simple.t) : Prop :=
  let q := Math.max 0.5 (Simple.q (Simple._options this)) in
  Simple.Q (Simple._low this) = q
  /\ Simple.Q (Simple._centre this) = q
  /\ Simple.Q (Simple._high this) = q
  /\ Simple._lowGain this = 1 / 3
  /\ Simple._centreGain this = 1 / 3
  /\ Simple._highGain this = 1 / 3
  /\ 20 <= Simple.frequency (Simple._low this)
  /\ Simple.frequency (Simple._low this)
     <= Simple.frequency (Simple._centre this)
  /\ Simple.frequency (Simple._centre this)
     <= Simple.frequency (Simple._high this).

End Bank.

(** ** The application around the filter (old-script.js) *)

Module App.

Definition SYNTH_FILTER_FREQUENCY_MIN : R := 80.
Definition SYNTH_FILTER_FREQUENCY_MAX : R := 6000.
Definition SYNTH_FILTER_SPAN_MIN : R := 40.
Definition SYNTH_FILTER_SPAN_MAX : R := 1800.
Definition SYNTH_FILTER_Q_MIN : R := 2.
Definition SYNTH_FILTER_Q_MAX : R := 30.
Definition SYNTH_FILTER_DEFAULT_Q : R := 12.
Definition SYNTH_FILTER_DEFAULT_FEEDBACK : R := 0.08.

Definition clampSynthFilterSpan (span : R) : R :=
  Math.min (Math.max span SYNTH_FILTER_SPAN_MIN) SYNTH_FILTER_SPAN_MAX.

(** [Math.min(Math.max(frequency, SYNTH_FILTER_FREQUENCY_MIN),
    SYNTH_FILTER_FREQUENCY_MAX)] and the same for q. *)
Definition clampFrequency (frequency : R) : R :=
  Math.min (Math.max frequency SYNTH_FILTER_FREQUENCY_MIN)
           SYNTH_FILTER_FREQUENCY_MAX.

Definition clampQ (q : R) : R :=
  Math.min (Math.max q SYNTH_FILTER_Q_MIN) SYNTH_FILTER_Q_MAX.

(** The value of [synthFilter] when it is not [null].  [synthFilterIsSVF]
    is assigned together with [synthFilter] and is [true] exactly for a
    [ThreeSistersSVF], so the flag is the constructor here. *)
Inductive SynthFilter : Type :=
| SVFNode (node : SVF.t)
| SimpleNode (node : Simple.t).

(** The [settings] argument of [applySynthFilterSettings]. *)
Record Settings : Type := mkSettings {
  frequency : option R;
  span      : option R;
  q         : option R
}.

(** [if (v !== undefined) node.p = v], for a [ThreeSistersSVF]. *)
Definition assign_if (v : option R)
    (set : R -> SVF.t -> SVF.t * list SVF.Effect) (node : SVF.t)
    : SVF.t * list SVF.Effect :=
  match v with
  | Some v => set v node
  | None => (node, [])
  end.

Section Host.

(** The sample rate of the context that [resolveBaseAudioContext()]
    finds, read by the bank; [None] when it returns [null]. *)
Variable raw : option R.

(** [applySynthFilterSettings(settings = {})].  Both classes have an
    [update] method and a [q] property, so the branch for a node with a
    [frequency] property is not taken. *)
Definition applySynthFilterSettings (settings : Settings)
    (synthFilter : option SynthFilter)
    : option SynthFilter * list SVF.Effect :=
  match synthFilter with
  | None => (None, [])
  | Some filter =>
      let clampedFrequency := option_map clampFrequency (frequency settings) in
      let clampedSpan := option_map clampSynthFilterSpan (span settings) in
      let clampedQ := option_map clampQ (q settings) in
      match filter with
      | SVFNode node =>
          let '(node, e1) := assign_if clampedFrequency SVF.set_center node in
          let '(node, e2) := assign_if clampedSpan SVF.set_span node in
          let '(node, e3) := assign_if clampedQ SVF.set_q node in
          (Some (SVFNode node), e1 ++ e2 ++ e3)
      | SimpleNode node =>
          let node := Simple.update raw clampedFrequency clampedSpan node in
          let node := match clampedQ with
                      | Some v => Simple.set_q v node
                      | None => node
                      end in
          (Some (SimpleNode node), [])
      end
  end.

(** Several calls of [applySynthFilterSettings], one after the other, and
    the host calls of all of them. *)
Fixpoint applyMany (many : list Settings) (synthFilter : option SynthFilter)
    : option SynthFilter * list SVF.Effect :=
  match many with
  | [] => (synthFilter, [])
  | settings :: many =>
      let r := applySynthFilterSettings settings synthFilter in
      let r' := applyMany many (fst r) in
      (fst r', snd r ++ snd r')
  end.

End Host.

(** [synthFilter.center], [synthFilter.span] and [synthFilter.q], read on
    either class. *)
Definition center (f : SynthFilter) : R :=
  match f with
  | SVFNode node => SVF.get_center node
  | SimpleNode node => Simple.get_center node
  end.

Definition span_of (f : SynthFilter) : R :=
  match f with
  | SVFNode node => SVF.get_span node
  | SimpleNode node => Simple.get_span node
  end.

Definition q_of (f : SynthFilter) : R :=
  match f with
  | SVFNode node => SVF.get_q node
  | SimpleNode node => Simple.get_q node
  end.

(** [canUseThreeSistersSVF()]; [raw] is what [resolveBaseAudioContext()]
    returned and [workletNodeDefined] is
    [typeof AudioWorkletNode !== 'undefined']. *)
Definition canUseThreeSistersSVF (heap : AudioContext.Heap)
    (raw : option AudioContext.ref) (workletNodeDefined : bool) : bool :=
  match raw with
  | Some r =>
      AudioContext.audioWorklet (heap r)
      && AudioContext.addModuleIsFunction (heap r)
      && workletNodeDefined
  | None => false
  end.

(** The test at the head of [_initWorklet] in old-script.js,
    [audioContext && audioContext.audioWorklet]. *)
Definition workletSupported (heap : AudioContext.Heap)
    (raw : option AudioContext.ref) : bool :=
  match raw with
  | Some r => AudioContext.audioWorklet (heap r)
  | None => false
  end.

(** The context that [_initWorklet] finds in old-script.js: what
    [resolveBaseAudioContext()] returned. *)
Definition audioContext (heap : AudioContext.Heap)
    (raw : option AudioContext.ref) : option SVF.Context :=
  option_map (fun r => SVF.mkContext r (AudioContext.audioWorklet (heap r)))
             raw.

(** The three parameters of [getUIParams()] that are read for the filter;
    [synthFilterQ] may be nullish. *)
Record Params : Type := mkParams {
  synthFilterFrequency : R;
  synthFilterSpan      : R;
  synthFilterQ         : option R
}.

(** What the part of [generateSoundscape] that builds the synth filter
    leaves: [synthFilter], the static [_workletLoaded] and the host calls
    made on the way. *)
Record Built : Type := mkBuilt {
  synthFilter   : SynthFilter;
  workletLoaded : bool;
  effects       : list SVF.Effect
}.

(** [generateSoundscape], from [const synthFilterFrequency = ...] to
    [applySynthFilterSettings({...})].  [loaded] is the static
    [_workletLoaded] before, [host] gives the answers of the host to the
    calls of [_initWorklet].  When [ready()] rejects, the [catch] disposes
    of the node as [_initWorklet] left it. *)
Definition generateSoundscape_synthFilter (heap : AudioContext.Heap)
    (raw : option AudioContext.ref) (workletNodeDefined : bool)
    (loaded : bool) (host : SVF.InitHost) (params : Params) : Built :=
  let frequency := clampFrequency (synthFilterFrequency params) in
  let span := clampSynthFilterSpan (synthFilterSpan params) in
  let q := clampQ (match synthFilterQ params with
                   | Some v => v
                   | None => SYNTH_FILTER_DEFAULT_Q
                   end) in
  let supportsSVF := canUseThreeSistersSVF heap raw workletNodeDefined in
  let '(filterNode, loaded, e1) :=
    if supportsSVF then
      let node := SVF.constructor
                    (SVF.mkOptionsArg (Some frequency) (Some span) (Some q)
                       (Some SYNTH_FILTER_DEFAULT_FEEDBACK)) in
      match SVF._initWorklet (audioContext heap raw) loaded host node with
      | (SVF.Normal node e, loaded) => (Some node, loaded, e)
      | (SVF.Throw _ node e, loaded) =>
          (None, loaded, e ++ snd (SVF.dispose node))
      end
    else (None, loaded, []) in
  let sampleRate := option_map (fun r => AudioContext.sampleRate (heap r)) raw in
  let filter :=
    match filterNode with
    | Some node => SVFNode node
    | None =>
        SimpleNode (Simple.constructor sampleRate
                      (Simple.mkOptionsArg (Some frequency) (Some span)
                         (Some q)))
    end in
  let '(applied, e2) :=
    applySynthFilterSettings sampleRate
      (mkSettings (Some frequency) (Some span) (Some q)) (Some filter) in
  mkBuilt (match applied with Some f => f | None => filter end)
          loaded (e1 ++ e2).

(** The node of [generateSoundscape] is given up after it was stored: the
    probe succeeded, [_initWorklet] got as far as creating the node, and
    one of the two [connect] calls threw. *)
Definition given_up (heap : AudioContext.Heap)
    (raw : option AudioContext.ref) (workletNodeDefined loaded : bool)
    (host : SVF.InitHost) : bool :=
  canUseThreeSistersSVF heap raw workletNodeDefined
  && (loaded || SVF.addModuleOk host)
  && SVF.newNodeOk host
  && negb (SVF.connectInputOk host && SVF.connectOutputOk host).






End App.

(** ** mapValue and mapLayerFilterValue (utils/random.js) *)

Module Utils.

Definition LAYER_FILTER_MIN_FREQ : R := 40.
Definition LAYER_FILTER_MAX_FREQ : R := 12000.

Definition mapValue (value inMin inMax outMin outMax : R) : R :=
  (value - inMin) * (outMax - outMin) / (inMax - inMin) + outMin.

(** [mapLayerFilterValue(value)] for a [value] that is a number, which
    [parseFloat] gives back; [Math.pow] of a positive base is [Rpower]. *)
Definition mapLayerFilterValue (value : R) : R :=
  let clamped := Math.min (Math.max value 0) 1 in
  let multiplier := LAYER_FILTER_MAX_FREQ / LAYER_FILTER_MIN_FREQ in
  LAYER_FILTER_MIN_FREQ * Rpower multiplier clamped.

End Utils.

(** ** A host *)

Module Host.

(** Three objects: the Tone.js context (0) whose [rawContext] is a wrapper
    (1) that points back to it and to the native context (2). *)
Definition plain : AudioContext.Candidate :=
  AudioContext.mkCandidate false None None None 0 false false.

Definition heap : AudioContext.Heap :=
  fun r =>
    match r with
    | 0%nat => AudioContext.mkCandidate false (Some 1%nat) None None
                 0 false false
    | 1%nat => AudioContext.mkCandidate false None (Some 0%nat) (Some 2%nat)
                 0 false false
    | 2%nat => AudioContext.mkCandidate true None None None
                 48000 true true
    | _ => plain
    end.

(** A host whose objects are not audio contexts: the wrapper points back
    only. *)
Definition heap_without : AudioContext.Heap :=
  fun r =>
    match r with
    | 0%nat => AudioContext.mkCandidate false (Some 1%nat) None None
                 0 false false
    | 1%nat => AudioContext.mkCandidate false None (Some 0%nat) (Some 1%nat)
                 0 false false
    | _ => plain
    end.

(** The native context, as [_initWorklet] finds it, and a host in which
    every call of [_initWorklet] succeeds. *)
Definition native : SVF.Context := SVF.mkContext 2 true.

Definition willing : SVF.InitHost := SVF.mkInitHost true true true true.

(** A host in which [addModule] resolves and the node is created, but the
    first [connect] throws. *)
Definition unconnected : SVF.InitHost := SVF.mkInitHost true true false true.

Definition params : App.Params := App.mkParams 7000 10 None.


End Host.

(** * Properties *)

(** ** The per-sample equations *)

Lemma loop_body_sample (c : Spec.Coeffs) (fb : R) (b : Spec.Bands) (x : R) :
  Processor.loop_body (Spec.lowA c) (Spec.centreA c) (Spec.highA c)
    (Spec.alpha2 c) fb
    (Processor.mkLocals (Spec.s1 (Spec.low b)) (Spec.s2 (Spec.low b))
       (Spec.s1 (Spec.centre b)) (Spec.s2 (Spec.centre b))
       (Spec.s1 (Spec.high b)) (Spec.s2 (Spec.high b))) x
  = (let r := Spec.sample c fb b x in
     (Processor.mkLocals
        (Spec.s1 (Spec.low (fst r))) (Spec.s2 (Spec.low (fst r)))
        (Spec.s1 (Spec.centre (fst r))) (Spec.s2 (Spec.centre (fst r)))
        (Spec.s1 (Spec.high (fst r))) (Spec.s2 (Spec.high (fst r))),
      snd r)).
Proof. reflexivity. Qed.

Lemma loop_block (c : Spec.Coeffs) (fb : R) (xs : list R) :
  forall b : Spec.Bands,
    Processor.loop (Spec.lowA c) (Spec.centreA c) (Spec.highA c)
      (Spec.alpha2 c) fb
      (Processor.mkLocals (Spec.s1 (Spec.low b)) (Spec.s2 (Spec.low b))
         (Spec.s1 (Spec.centre b)) (Spec.s2 (Spec.centre b))
         (Spec.s1 (Spec.high b)) (Spec.s2 (Spec.high b))) xs
    = (let r := Spec.block c fb b xs in
       (Processor.mkLocals
          (Spec.s1 (Spec.low (fst r))) (Spec.s2 (Spec.low (fst r)))
          (Spec.s1 (Spec.centre (fst r))) (Spec.s2 (Spec.centre (fst r)))
          (Spec.s1 (Spec.high (fst r))) (Spec.s2 (Spec.high (fst r))),
        snd r)).
Proof.
  induction xs as [|x xs IH]; intros b.
  - destruct b as [[? ?] [? ?] [? ?]]; reflexivity.
  - cbn [Processor.loop Spec.block].
    rewrite loop_body_sample.
    cbv beta iota zeta.
    rewrite IH.
    reflexivity.
Qed.

Lemma process_nonempty (this : Processor.t) (inputs : list (list (list R)))
    (parameters : Processor.AudioParams) (inCh : list R)
    (rest : list (list R)) :
  nth_error inputs 0 = Some (inCh :: rest) ->
  Processor.process this inputs parameters =
  (let this' := Dsp.at_block_start this in
   let r := Processor.loop
              (Processor._lowAlpha1 this') (Processor._centreAlpha1 this')
              (Processor._highAlpha1 this') (Processor._alpha2 this')
              (Processor._feedback this') (Processor.load_locals this') inCh in
   Processor.mkOutcome (Processor.store_locals (fst r) this') (snd r) true).
Proof.
  intros H. unfold Processor.process. rewrite H.
  unfold Dsp.at_block_start. cbv zeta.
  destruct (Processor.loop _ _ _ _ _ _ _); reflexivity.
Qed.

Lemma load_locals_at_block_start (this : Processor.t) :
  Processor.load_locals (Dsp.at_block_start this)
  = Processor.load_locals this.
Proof.
  unfold Dsp.at_block_start.
  destruct (Processor._recalc this); reflexivity.
Qed.

Lemma feedback_at_block_start (this : Processor.t) :
  Processor._feedback (Dsp.at_block_start this) = Processor._feedback this.
Proof.
  unfold Dsp.at_block_start. destruct (Processor._recalc this); reflexivity.
Qed.

(** The loop of [process], started from the accumulators of [this] with
    the coefficients cached in [used]. *)
Lemma loop_of_processor (used this : Processor.t) (fb : R) (xs : list R) :
  Processor.loop (Processor._lowAlpha1 used) (Processor._centreAlpha1 used)
    (Processor._highAlpha1 used) (Processor._alpha2 used) fb
    (Processor.load_locals this) xs
  = (let r := Spec.block (Dsp.coeffs used) fb (Dsp.bands this) xs in
     (Processor.mkLocals
        (Spec.s1 (Spec.low (fst r))) (Spec.s2 (Spec.low (fst r)))
        (Spec.s1 (Spec.centre (fst r))) (Spec.s2 (Spec.centre (fst r)))
        (Spec.s1 (Spec.high (fst r))) (Spec.s2 (Spec.high (fst r))),
      snd r)).
Proof. exact (loop_block (Dsp.coeffs used) fb xs (Dsp.bands this)). Qed.

(** C1.  When [process] is given a block (an input with at least one
    channel), every sample of the first channel goes through the equations
    of the specification, with the coefficients in effect for the block, the
    feedback and the band states of the processor: the drives are formed
    from the old s1 values, each band is stepped by hp, bp, lp, and the
    sample written is the average of the three bp.  The six accumulators
    that the call leaves in the processor are the s1 and s2 after the last
    sample; the coefficients are the ones the block used, the feedback, the
    centre frequency, the span and the sample rate are untouched, and the
    dirty flag is clear. *)
Theorem C1_process_equations (this : Processor.t)
    (inputs : list (list (list R))) (parameters : Processor.AudioParams)
    (inCh : list R) (rest : list (list R)) :
  nth_error inputs 0 = Some (inCh :: rest) ->
  let this' := Dsp.at_block_start this in
  let r := Spec.block (Dsp.coeffs this') (Processor._feedback this)
             (Dsp.bands this) inCh in
  let out := Processor.process this inputs parameters in
  Processor.written out = snd r
  /\ Dsp.bands (Processor.after out) = fst r
  /\ Processor.returned out = true
  /\ Dsp.coeffs (Processor.after out) = Dsp.coeffs this'
  /\ Processor._feedback (Processor.after out) = Processor._feedback this
  /\ Processor._centreFreq (Processor.after out) = Processor._centreFreq this
  /\ Processor._span (Processor.after out) = Processor._span this
  /\ Processor._sampleRate (Processor.after out) = Processor._sampleRate this
  /\ Processor._recalc (Processor.after out) = false.
Proof.
  intros H this' r out.
  assert (E : out
              = (let l := Processor.loop
                            (Processor._lowAlpha1 this')
                            (Processor._centreAlpha1 this')
                            (Processor._highAlpha1 this')
                            (Processor._alpha2 this')
                            (Processor._feedback this')
                            (Processor.load_locals this') inCh in
                 Processor.mkOutcome (Processor.store_locals (fst l) this')
                   (snd l) true)).
  { unfold out. now rewrite (process_nonempty _ _ _ _ _ H). }
  cbv zeta in E.
  rewrite (load_locals_at_block_start this : Processor.load_locals this' = _)
    in E.
  rewrite (feedback_at_block_start this : Processor._feedback this' = _) in E.
  rewrite loop_of_processor in E. cbv zeta in E. fold r in E.
  cbn [fst snd] in E. rewrite E.
  cbn [Processor.written Processor.after Processor.returned].
  split; [reflexivity | split; [| split; [reflexivity |]]].
  - destruct (fst r) as [[? ?] [? ?] [? ?]]. reflexivity.
  - unfold this', Dsp.at_block_start.
    destruct (Processor._recalc this) eqn:D;
      repeat split; try reflexivity; exact D.
Qed.

Lemma C1_process_equations_witness :
  let this := Processor.constructor 48000 in
  let this' := Dsp.at_block_start this in
  let r := Spec.block (Dsp.coeffs this') (Processor._feedback this)
             (Dsp.bands this) [1; 0] in
  let out := Processor.process this [[[1; 0]]] [] in
  Processor.written out = snd r
  /\ Dsp.bands (Processor.after out) = fst r
  /\ Processor.returned out = true
  /\ Dsp.coeffs (Processor.after out) = Dsp.coeffs this'
  /\ Processor._feedback (Processor.after out) = Processor._feedback this
  /\ Processor._centreFreq (Processor.after out) = Processor._centreFreq this
  /\ Processor._span (Processor.after out) = Processor._span this
  /\ Processor._sampleRate (Processor.after out) = Processor._sampleRate this
  /\ Processor._recalc (Processor.after out) = false.
Proof.
  apply (C1_process_equations (Processor.constructor 48000) [[[1; 0]]] []
           [1; 0] []).
  reflexivity.
Defined.

(** ** The [parameters] argument *)

(** C10.  [process] never reads its [parameters] argument: two calls on
    the same processor with the same inputs write the same samples, leave
    the same processor and return the same boolean, whatever the two
    [parameters] objects hold. *)
Theorem C10_process_ignores_parameters (this : Processor.t)
    (inputs : list (list (list R))) (p1 p2 : Processor.AudioParams) :
  Processor.process this inputs p1 = Processor.process this inputs p2.
Proof. reflexivity. Qed.

(** A value written to an AudioParam does not reach the processor; the
    same value sent as a message does. *)
Lemma parameters_versus_message :
  let automated := [("center", [1200]); ("span", [0])] in
  Processor.after (Processor.process Example.fresh [[[1]]] automated)
  = Processor.after (Processor.process Example.fresh [[[1]]] [])
  /\ Processor._centreFreq
       (Processor.onmessage (SVF.update_center 1200) Example.fresh) = 1200.
Proof. split; reflexivity. Qed.

(** ** Blocks without input *)

(** C7.  When [inputs[0]] is absent or has no channel, [process] returns
    [true], writes nothing and leaves the processor as it was: the six
    accumulators, the cached coefficients and the dirty flag included. *)
Theorem C7_no_input_no_change (this : Processor.t)
    (inputs : list (list (list R))) (parameters : Processor.AudioParams) :
  nth_error inputs 0 = None \/ nth_error inputs 0 = Some [] ->
  Processor.process this inputs parameters = Processor.mkOutcome this [] true.
Proof.
  intros [H | H]; unfold Processor.process; rewrite H; reflexivity.
Qed.

Lemma C7_no_input_no_change_witness :
  Processor.process Example.struck [[]] [] =
  Processor.mkOutcome Example.struck [] true.
Proof.
  apply (C7_no_input_no_change Example.struck [[]] []).
  right; reflexivity.
Defined.

(** ** The message handler *)

Lemma onmessage_update (data : Processor.Message) (this : Processor.t) :
  Processor.type data = "update" ->
  Processor.onmessage data this =
  Processor.set_recalc true
    (Processor.if_defined (Processor.feedback data) Processor.set_feedback
       (Processor.if_defined (Processor.q data)
          (fun v => Processor.set_alpha2 (1 / Math.max 0.0001 v))
          (Processor.if_defined (Processor.span data) Processor.set_span
             (Processor.if_defined (Processor.center data)
                Processor.set_centreFreq this)))).
Proof.
  intros H. unfold Processor.onmessage. rewrite H. reflexivity.
Qed.

(** C6.  An update message changes exactly the parameters whose fields it
    carries: [center] sets the centre frequency, [span] the span, [q] the
    damping (as [1 / max(0.0001, q)]) and [feedback] the feedback; a
    parameter whose field is missing keeps its value.  The band states, the
    three α₁ and the sample rate are not touched. *)
Theorem C6_partial_update (data : Processor.Message) (this : Processor.t) :
  Processor.type data = "update" ->
  let this' := Processor.onmessage data this in
  Processor._centreFreq this' =
    match Processor.center data with
    | Some v => v | None => Processor._centreFreq this end
  /\ Processor._span this' =
    match Processor.span data with
    | Some v => v | None => Processor._span this end
  /\ Processor._alpha2 this' =
    match Processor.q data with
    | Some v => 1 / Math.max 0.0001 v | None => Processor._alpha2 this end
  /\ Processor._feedback this' =
    match Processor.feedback data with
    | Some v => v | None => Processor._feedback this end
  /\ Dsp.bands this' = Dsp.bands this
  /\ Dsp.alpha1s this' = Dsp.alpha1s this
  /\ Processor._sampleRate this' = Processor._sampleRate this.
Proof.
  intros H this'. subst this'. rewrite (onmessage_update _ _ H).
  destruct data as [ty [c|] [s|] [qv|] [f|]]; cbn; repeat split; reflexivity.
Qed.

Lemma C6_partial_update_witness :
  let this' := Processor.onmessage (SVF.update_span 450) Example.fresh in
  Processor._centreFreq this' = 600
  /\ Processor._span this' = 450
  /\ Processor._alpha2 this' = 1 / 8
  /\ Processor._feedback this' = 0.05
  /\ Dsp.bands this' = Dsp.bands Example.fresh
  /\ Dsp.alpha1s this' = Dsp.alpha1s Example.fresh
  /\ Processor._sampleRate this' = 48000.
Proof.
  exact (C6_partial_update (SVF.update_span 450) Example.fresh eq_refl).
Defined.

(** A message of another type changes nothing. *)
Lemma onmessage_other_type (data : Processor.Message) (this : Processor.t) :
  Processor.type data <> "update" ->
  Processor.onmessage data this = this.
Proof.
  intros H. unfold Processor.onmessage.
  destruct (String.eqb_spec (Processor.type data) "update"); congruence.
Qed.

(** ** The dirty flag *)

Section Loop.

Variables lowA centreA highA alpha2 fb : R.

Let body := Processor.loop_body lowA centreA highA alpha2 fb.
Let loop := Processor.loop lowA centreA highA alpha2 fb.

Lemma loop_cons (l : Processor.Locals) (x : R) (xs : list R) :
  loop l (x :: xs) =
  (fst (loop (fst (body l x)) xs), snd (body l x) :: snd (loop (fst (body l x)) xs)).
Proof.
  unfold loop, body. cbn [Processor.loop].
  destruct (Processor.loop_body _ _ _ _ _ l x) as [l1 y]. cbn [fst snd].
  destruct (Processor.loop _ _ _ _ _ l1 xs); reflexivity.
Qed.

(** The sample written at index [i] is the one the loop body computes
    from the locals reached after the first [i] samples. *)
Lemma loop_written (xs : list R) :
  forall (l : Processor.Locals) (i : nat) (x : R),
    nth_error xs i = Some x ->
    nth_error (snd (loop l xs)) i =
    Some (snd (body (fst (loop l (firstn i xs))) x)).
Proof.
  induction xs as [|x0 xs IH]; intros l i x H.
  - destruct i; discriminate.
  - rewrite loop_cons. destruct i as [|i].
    + cbn in H. injection H as ->. reflexivity.
    + cbn [nth_error snd] in *. cbn [firstn]. rewrite loop_cons. cbn [fst].
      apply IH, H.
Qed.

Lemma loop_length (xs : list R) :
  forall l : Processor.Locals, List.length (snd (loop l xs)) = List.length xs.
Proof.
  induction xs as [|x xs IH]; intros l.
  - reflexivity.
  - rewrite loop_cons. cbn [snd List.length]. now rewrite IH.
Qed.

End Loop.

Lemma at_block_start_clean (this : Processor.t) :
  Processor._recalc (Dsp.at_block_start this) = false.
Proof.
  unfold Dsp.at_block_start.
  destruct (Processor._recalc this) eqn:E; [reflexivity | exact E].
Qed.

(** C5.  The α₁ coefficients change only in [process], before the loop.
    An update message sets the dirty flag and leaves the three α₁ as they
    are.  A call of [process] on a block takes the coefficients from
    [_updateCoefficients] when the flag is set and keeps the cached ones
    when it is not; it leaves the flag cleared and the coefficients it used
    in the cache; and the sample at every index of the block is computed by
    the loop body with these same coefficients and feedback. *)
Theorem C5_recompute_at_block_start (data : Processor.Message)
    (this : Processor.t) (inputs : list (list (list R)))
    (parameters : Processor.AudioParams) (inCh : list R)
    (rest : list (list R)) :
  Processor.type data = "update" ->
  nth_error inputs 0 = Some (inCh :: rest) ->
  (Processor._recalc (Processor.onmessage data this) = true
   /\ Dsp.alpha1s (Processor.onmessage data this) = Dsp.alpha1s this)
  /\
  let used := if Processor._recalc this
              then Processor._updateCoefficients this else this in
  let r := Processor.process this inputs parameters in
  Dsp.coeffs (Processor.after r) = Dsp.coeffs used
  /\ Processor._recalc (Processor.after r) = false
  /\ List.length (Processor.written r) = List.length inCh
  /\ forall (i : nat) (x : R),
       nth_error inCh i = Some x ->
       nth_error (Processor.written r) i =
       Some (snd (Processor.loop_body
                    (Processor._lowAlpha1 used) (Processor._centreAlpha1 used)
                    (Processor._highAlpha1 used) (Processor._alpha2 used)
                    (Processor._feedback used) (Dsp.locals_at used inCh i) x)).
Proof.
  intros Hty Hin. split.
  - rewrite (onmessage_update _ _ Hty).
    destruct data as [ty [c|] [s|] [qv|] [f|]]; split; reflexivity.
  - intros used r. subst r.
    rewrite (process_nonempty _ _ _ _ _ Hin).
    change (Dsp.at_block_start this) with used. cbv zeta.
    cbn [Processor.after Processor.written].
    repeat split.
    + apply (at_block_start_clean this).
    + apply loop_length.
    + intros i x Hx. unfold Dsp.locals_at. now apply loop_written.
Qed.

Lemma C5_recompute_at_block_start_witness :
  (Processor._recalc
     (Processor.onmessage (SVF.update_center 440) Example.struck) = true
   /\ Dsp.alpha1s (Processor.onmessage (SVF.update_center 440) Example.struck)
      = Dsp.alpha1s Example.struck)
  /\
  let used := if Processor._recalc Example.struck
              then Processor._updateCoefficients Example.struck
              else Example.struck in
  let r := Processor.process Example.struck [[[1; 0]]] [] in
  Dsp.coeffs (Processor.after r) = Dsp.coeffs used
  /\ Processor._recalc (Processor.after r) = false
  /\ List.length (Processor.written r) = List.length [1; 0]
  /\ forall (i : nat) (x : R),
       nth_error [1; 0] i = Some x ->
       nth_error (Processor.written r) i =
       Some (snd (Processor.loop_body
                    (Processor._lowAlpha1 used) (Processor._centreAlpha1 used)
                    (Processor._highAlpha1 used) (Processor._alpha2 used)
                    (Processor._feedback used)
                    (Dsp.locals_at used [1; 0] i) x)).
Proof.
  exact (C5_recompute_at_block_start (SVF.update_center 440) Example.struck
           [[[1; 0]]] [] [1; 0] [] eq_refl eq_refl).
Defined.

(** ** Band frequencies *)

(** Decides the [min] and [max] of a goal and leaves linear arithmetic. *)
Ltac minmax :=
  unfold Spec.clamp, Math.min, Math.max, Rmin, Rmax in *;
  repeat match goal with
         | |- context [Rle_dec ?a ?b] => destruct (Rle_dec a b)
         | H : context [Rle_dec ?a ?b] |- _ => destruct (Rle_dec a b)
         end;
  try lra.

Lemma band_freqs_low_centre :
  Processor.band_freqs Example.low_centre = Processor.mkFreqs 20 20 40.
Proof.
  unfold Processor.band_freqs; cbn.
  f_equal; minmax.
Qed.

Lemma band_freqs_negative_span :
  Processor.band_freqs Example.negative_span = Processor.mkFreqs 900 600 300.
Proof.
  unfold Processor.band_freqs; cbn.
  f_equal; minmax.
Qed.

(** C2, as stated, fails twice.  With [centerFreq = 5] and [span = 20] at
    48 kHz the code derives the high band from the clamped centre, 20 + 20 =
    40 Hz, where the stated formula gives clamp(5 + 20) = 25 Hz.  With
    [span = -300] the low band is 900 Hz and the high band 300 Hz, so the
    order is lost. *)
Lemma C2_band_claim_counterexample :
  ~ Claim.band_claim Example.low_centre
  /\ ~ Claim.band_claim Example.negative_span.
Proof.
  split; intros [Hf Ho].
  - rewrite band_freqs_low_centre in Hf.
    apply (f_equal Processor.highF) in Hf. cbn in Hf.
    revert Hf. minmax.
  - rewrite band_freqs_negative_span in Ho.
    destruct Ho as (_ & H & _). cbn in H. lra.
Qed.

(** C2, amended.  When [0.45·sampleRate] is at least 20 and the span is
    not negative, the centre is clamp(centerFreq, 20, 0.45·sampleRate),
    the low and high bands are the clamped [centre - span] and
    [centre + span], taken from the clamped centre, and
    20 ≤ low ≤ centre ≤ high ≤ 0.45·sampleRate. *)
Theorem C2_band_order (this : Processor.t) :
  20 <= 0.45 * Processor._sampleRate this ->
  0 <= Processor._span this ->
  let f := Processor.band_freqs this in
  let nyq := 0.45 * Processor._sampleRate this in
  Processor.centre f = Spec.clamp (Processor._centreFreq this) 20 nyq
  /\ Processor.lowF f =
       Spec.clamp (Processor.centre f - Processor._span this) 20 nyq
  /\ Processor.highF f =
       Spec.clamp (Processor.centre f + Processor._span this) 20 nyq
  /\ Claim.ordered (Processor._sampleRate this) f.
Proof.
  intros Hsr Hspan f nyq. subst f nyq.
  unfold Processor.band_freqs, Claim.ordered.
  cbn [Processor.lowF Processor.centre Processor.highF].
  replace (Processor._sampleRate this * 0.45)
    with (0.45 * Processor._sampleRate this) by ring.
  set (nyq := 0.45 * Processor._sampleRate this) in *.
  set (cf := Processor._centreFreq this).
  set (sp := Processor._span this) in *.
  repeat split; minmax.
Qed.

Lemma C2_band_order_witness :
  let f := Processor.band_freqs Example.fresh in
  Processor.centre f = Spec.clamp 600 20 (0.45 * 48000)
  /\ Processor.lowF f = Spec.clamp (Processor.centre f - 300) 20 (0.45 * 48000)
  /\ Processor.highF f = Spec.clamp (Processor.centre f + 300) 20 (0.45 * 48000)
  /\ Claim.ordered 48000 f.
Proof.
  apply (C2_band_order Example.fresh); cbn; lra.
Defined.

(** The concrete case of the specification: 300, 600 and 900 Hz. *)
Lemma band_freqs_fresh :
  Processor.band_freqs Example.fresh = Processor.mkFreqs 300 600 900.
Proof.
  unfold Processor.band_freqs; cbn.
  f_equal; minmax.
Qed.

(** The α₁ of the specification's concrete case. *)
Lemma alpha1_fresh :
  Dsp.alpha1s (Dsp.at_block_start Example.fresh)
  = (2 * Math.sin (Math.PI * 300 / 48000),
     2 * Math.sin (Math.PI * 600 / 48000),
     2 * Math.sin (Math.PI * 900 / 48000)).
Proof.
  unfold Dsp.at_block_start, Dsp.alpha1s.
  cbn [Example.fresh Processor.constructor Processor._recalc].
  unfold Processor._updateCoefficients. rewrite band_freqs_fresh.
  reflexivity.
Qed.

(** ** Damping *)

(** C3, as stated, fails for the real-time core: the update [{q: 0.05}]
    leaves α₂ = 1/0.05 = 20, where a floor of 0.1 would give 10. *)
Lemma C3_alpha2_counterexample :
  Processor._alpha2 Example.small_q = 20
  /\ Claim.alpha2 0.1 0.05 = 10
  /\ Processor._alpha2 Example.small_q <> Claim.alpha2 0.1 0.05.
Proof.
  assert (A : Processor._alpha2 Example.small_q = 20).
  { cbn. minmax. }
  assert (B : Claim.alpha2 0.1 0.05 = 10).
  { unfold Claim.alpha2. minmax. }
  repeat split; [exact A | exact B | rewrite A, B; lra].
Qed.

(** The descriptor of the AudioParam [q] has the minimum 0.1; the message
    handler takes a smaller q as it is. *)
Lemma q_below_descriptor_minimum :
  In (Processor.mkDescriptor "q" 8 0.1 100) Processor.parameterDescriptors
  /\ 0.05 < 0.1
  /\ Processor._alpha2 Example.small_q = 1 / 0.05.
Proof.
  split; [cbn; tauto | split; [lra |]].
  cbn. minmax.
Qed.

(** C3, amended.  An update of the real-time core that carries [q] leaves
    α₂ = 1/max(q, 0.0001); the fallback bank writes max(q, 0.5) to the Q of
    each of its three stages. *)
Theorem C3_alpha2 (v : R) (data : Processor.Message) (this : Processor.t)
    (bank : Simple.t) :
  Processor.type data = "update" ->
  Processor.q data = Some v ->
  Processor._alpha2 (Processor.onmessage data this) = Claim.alpha2 0.0001 v
  /\
  let bank' := Simple.set_q v bank in
  Simple.Q (Simple._low bank') = Rmax v 0.5
  /\ Simple.Q (Simple._centre bank') = Rmax v 0.5
  /\ Simple.Q (Simple._high bank') = Rmax v 0.5.
Proof.
  intros Hty Hq. split.
  - rewrite (onmessage_update _ _ Hty), Hq.
    unfold Claim.alpha2, Math.max. rewrite (Rmax_comm v).
    destruct (Processor.feedback data); reflexivity.
  - intros bank'. subst bank'.
    unfold Simple.set_q, Simple._updateQ, Math.max.
    cbn. rewrite (Rmax_comm 0.5). repeat split.
Qed.

Lemma C3_alpha2_witness :
  Processor._alpha2 (Processor.onmessage (SVF.update_q 2) Example.fresh)
  = Claim.alpha2 0.0001 2
  /\
  let bank' := Simple.set_q 2 Example.bank in
  Simple.Q (Simple._low bank') = Rmax 2 0.5
  /\ Simple.Q (Simple._centre bank') = Rmax 2 0.5
  /\ Simple.Q (Simple._high bank') = Rmax 2 0.5.
Proof.
  exact (C3_alpha2 2 (SVF.update_q 2) Example.fresh Example.bank
           eq_refl eq_refl).
Defined.

(** ** Setters and getters *)

Lemma init_ready :
  SVF._initWorklet (Some Host.native) false Host.willing Example.built
  = (SVF.Normal Example.ready
       [SVF.AddModule 2; SVF.NewNode 2; SVF.ConnectInput; SVF.ConnectOutput],
     true).
Proof. reflexivity. Qed.

(** C4, as stated, fails: on a Ready node, after [center = 5] the getter
    returns 5, which is below the 20 Hz that clamping would give. *)
Lemma C4_roundtrip_counterexample :
  SVF._workletNode Example.ready <> None
  /\ SVF.get SVF.Center (fst (SVF.set SVF.Center 5 Example.ready)) = 5
  /\ Claim.clamp_param 48000 SVF.Center 5 = 20
  /\ SVF.get SVF.Center (fst (SVF.set SVF.Center 5 Example.ready))
     <> Claim.clamp_param 48000 SVF.Center 5.
Proof.
  assert (B : Claim.clamp_param 48000 SVF.Center 5 = 20).
  { cbn. minmax. }
  repeat split.
  - discriminate.
  - exact B.
  - rewrite B. cbn. lra.
Qed.

(** C4, amended.  On a Ready node, after a parameter is set to [v] its
    getter returns [v] itself, unclamped; the other three getters are
    unchanged, and the same [v] is written to the AudioParam and sent in the
    update message.  In the fallback bank the getters of center, span and q
    return [v] as well, while the centre stage is tuned to
    clamp(v, 20, nyquist). *)
Theorem C4_getter_returns_value (p : SVF.Param) (v : R) (this : SVF.t)
    (node : SVF.AudioWorkletNode) (raw : option R) (bank : Simple.t) :
  SVF._workletNode this = Some node ->
  (let r := SVF.set p v this in
   SVF.get p (fst r) = v
   /\ (forall p' : SVF.Param, p' <> p -> SVF.get p' (fst r) = SVF.get p' this)
   /\ snd r = [SVF.SetParam (SVF.name p) v; SVF.PostMessage (SVF.message p v)]
   /\ SVF._workletNode (fst r) = Some node)
  /\ Simple.get_center (Simple.set_center raw v bank) = v
  /\ Simple.get_span (Simple.set_span raw v bank) = v
  /\ Simple.get_q (Simple.set_q v bank) = v
  /\ Simple.frequency (Simple._centre (Simple.set_center raw v bank))
     = Spec.clamp v 20 (Simple.nyquist raw).
Proof.
  intros Hn. split; [| repeat split].
  destruct this as [o n]; cbn in Hn; subst n.
  destruct p; cbn; (repeat split; [intros [] Hp; try reflexivity; congruence]).
Qed.

Lemma C4_getter_returns_value_witness :
  (let r := SVF.set SVF.Q 0.01 Example.ready in
   SVF.get SVF.Q (fst r) = 0.01
   /\ (forall p' : SVF.Param,
         p' <> SVF.Q -> SVF.get p' (fst r) = SVF.get p' Example.ready)
   /\ snd r = [SVF.SetParam "q" 0.01; SVF.PostMessage (SVF.update_q 0.01)]
   /\ SVF._workletNode (fst r) = Some (SVF.mkNode SVF.defaults))
  /\ Simple.get_center (Simple.set_center (Some 48000) 0.01 Example.bank) = 0.01
  /\ Simple.get_span (Simple.set_span (Some 48000) 0.01 Example.bank) = 0.01
  /\ Simple.get_q (Simple.set_q 0.01 Example.bank) = 0.01
  /\ Simple.frequency
       (Simple._centre (Simple.set_center (Some 48000) 0.01 Example.bank))
     = Spec.clamp 0.01 20 (Simple.nyquist (Some 48000)).
Proof.
  exact (C4_getter_returns_value SVF.Q 0.01 Example.ready
           (SVF.mkNode SVF.defaults) (Some 48000) Example.bank eq_refl).
Defined.

(** ** After dispose *)

(** C9, as stated, fails: on a disposed node [center = 5] changes what
    the getter returns, from 600 to 5. *)
Lemma C9_disposed_setter_counterexample :
  SVF.get_center Example.disposed = 600
  /\ SVF.get_center (fst (SVF.set_center 5 Example.disposed)) = 5
  /\ SVF.set SVF.Center 5 Example.disposed <> (Example.disposed, []).
Proof.
  repeat split.
  intros H. apply (f_equal (fun r => SVF.get_center (fst r))) in H.
  cbn in H. lra.
Qed.

(** After [dispose] nothing but setters: no host call, and the node stays
    null. *)
Lemma set_all_disposed (calls : list (SVF.Param * R)) :
  forall this : SVF.t,
    SVF._workletNode this = None ->
    snd (SVF.set_all calls this) = []
    /\ SVF._workletNode (fst (SVF.set_all calls this)) = None.
Proof.
  induction calls as [|[p v] calls IH]; intros this H.
  - split; [reflexivity | exact H].
  - cbn [SVF.set_all fst snd].
    assert (S : snd (SVF.set p v this) = []
                /\ SVF._workletNode (fst (SVF.set p v this)) = None).
    { destruct this as [o n]; cbn in H; subst n. destruct p; split; reflexivity. }
    destruct S as [S1 S2]. destruct (IH _ S2) as [I1 I2].
    rewrite S1, I1. split; [reflexivity | exact I2].
Qed.

(** C9, amended.  On a Ready node, one whose [_initWorklet] has completed,
    [dispose] leaves the worklet node null, and from then on every setter
    call (the first, and any later one with only setter calls in between)
    makes no host call (no AudioParam write, no message) and leaves the node
    null; it still stores the value in the options, so the getter of that
    parameter returns the new value and the other getters are unchanged.
    [dispose] of the fallback bank assigns no field of the instance, so a
    setter called afterwards stores the value and rewrites the stages as
    before. *)
Theorem C9_disposed_setter (p : SVF.Param) (v : R) (this : SVF.t)
    (node : SVF.AudioWorkletNode) (earlier : list (SVF.Param * R))
    (raw : option R) (bank : Simple.t) :
  SVF._workletNode this = Some node ->
  (let d := fst (SVF.dispose this) in
   let s := SVF.set_all earlier d in
   let r := SVF.set p v (fst s) in
   SVF._workletNode d = None
   /\ snd s = []
   /\ snd r = []
   /\ SVF._workletNode (fst r) = None
   /\ SVF.get p (fst r) = v
   /\ forall p' : SVF.Param,
        p' <> p -> SVF.get p' (fst r) = SVF.get p' (fst s))
  /\ fst (Simple.dispose bank) = bank
  /\ Simple.get_center (Simple.set_center raw v (fst (Simple.dispose bank))) = v
  /\ Simple.get_span (Simple.set_span raw v (fst (Simple.dispose bank))) = v
  /\ Simple.get_q (Simple.set_q v (fst (Simple.dispose bank))) = v.
Proof.
  intros Hn. split; [| repeat split].
  assert (D : SVF._workletNode (fst (SVF.dispose this)) = None).
  { destruct this as [o n]; cbn in Hn; subst n. reflexivity. }
  destruct (set_all_disposed earlier _ D) as [S1 S2].
  cbv zeta. split; [exact D | split; [exact S1 |]].
  destruct (fst (SVF.set_all earlier (fst (SVF.dispose this)))) as [o n].
  cbn in S2. subst n.
  destruct p; cbn;
    (repeat split; [intros [] Hp; try reflexivity; congruence]).
Qed.

Lemma C9_disposed_setter_witness :
  (let d := fst (SVF.dispose Example.ready) in
   let s := SVF.set_all [(SVF.Q, 3); (SVF.Center, 700)] d in
   let r := SVF.set SVF.Center 5 (fst s) in
   SVF._workletNode d = None
   /\ snd s = []
   /\ snd r = []
   /\ SVF._workletNode (fst r) = None
   /\ SVF.get SVF.Center (fst r) = 5
   /\ forall p' : SVF.Param,
        p' <> SVF.Center -> SVF.get p' (fst r) = SVF.get p' (fst s))
  /\ fst (Simple.dispose Example.bank) = Example.bank
  /\ Simple.get_center
       (Simple.set_center (Some 48000) 5 (fst (Simple.dispose Example.bank)))
     = 5
  /\ Simple.get_span
       (Simple.set_span (Some 48000) 5 (fst (Simple.dispose Example.bank)))
     = 5
  /\ Simple.get_q (Simple.set_q 5 (fst (Simple.dispose Example.bank))) = 5.
Proof.
  exact (C9_disposed_setter SVF.Center 5 Example.ready
           (SVF.mkNode SVF.defaults) [(SVF.Q, 3); (SVF.Center, 700)]
           (Some 48000) Example.bank eq_refl).
Defined.

(** ** Silence with feedback 0 *)


Lemma at_block_start_stored (l : Processor.Locals) (p : Processor.t) :
  Processor._recalc p = false ->
  Dsp.at_block_start (Processor.store_locals l p)
  = Processor.store_locals l p.
Proof.
  intros H. unfold Dsp.at_block_start.
  cbn [Processor._recalc Processor.store_locals]. now rewrite H.
Qed.

























(** A condition on the parameters that puts a band in the damped region:
    since sin x < x and π ≤ 4, it is enough that 8·f/F_s + α₂ < 2. *)
Lemma damped_when (f sampleRate a2 : R) :
  0 < sampleRate -> 20 <= f -> 0 < a2 ->
  8 * f + a2 * sampleRate < 2 * sampleRate ->
  Dsp.damped (2 * Math.sin (Math.PI * f / sampleRate)) a2.
Proof.
  intros Hsr Hf Ha H. unfold Dsp.damped, Math.sin, Math.PI.
  pose proof (Rinv_0_lt_compat _ Hsr) as Hi.
  assert (Hone : sampleRate * / sampleRate = 1) by (apply Rinv_r; lra).
  unfold Rdiv. set (i := / sampleRate) in *.
  pose proof PI_RGT_0 as P0. pose proof PI_4 as P4.
  assert (F0 : 0 < f * i) by (apply Rmult_lt_0_compat; lra).
  assert (F1 : 8 * (f * i) + a2 < 2).
  { assert ((8 * f + a2 * sampleRate) * i < 2 * sampleRate * i)
      by (apply Rmult_lt_compat_r; lra).
    nra. }
  replace (PI * f * i) with (PI * (f * i)) by ring.
  assert (X0 : 0 < PI * (f * i)) by (apply Rmult_lt_0_compat; lra).
  assert (X1 : PI * (f * i) < PI) by nra.
  pose proof (sin_gt_0 _ X0 X1).
  pose proof (sin_lt_x _ X0).
  repeat split; nra.
Qed.

(** *** When the form cannot grow

    After an update with q at least 1, and from then on through every call
    of [process], the coefficients keep α₁α₂ within [0, 2]: the recomputed
    α₁ lie in (0, 2] and α₂ = 1/max(0.0001, q) in (0, 1]. *)

Lemma alpha1_range (f sampleRate : R) :
  20 <= f <= sampleRate * 0.45 ->
  0 < 2 * Math.sin (Math.PI * f / sampleRate) <= 2.
Proof.
  intros [Hlo Hhi]. unfold Math.sin, Math.PI.
  assert (Hsr : 0 < sampleRate) by lra.
  pose proof (Rinv_0_lt_compat _ Hsr) as Hi.
  assert (Hone : sampleRate * / sampleRate = 1) by (apply Rinv_r; lra).
  set (i := / sampleRate) in *.
  assert (Hr : 0 < f * i <= 0.45).
  { split; [apply Rmult_lt_0_compat; lra |].
    assert (f * i <= sampleRate * 0.45 * i)
      by (apply Rmult_le_compat_r; lra).
    nra. }
  pose proof PI_RGT_0 as Hpi.
  replace (PI * f / sampleRate) with (PI * (f * i))
    by (unfold Rdiv; fold i; ring).
  assert (X0 : 0 < PI * (f * i)) by (apply Rmult_lt_0_compat; lra).
  assert (X1 : PI * (f * i) < PI) by nra.
  pose proof (sin_gt_0 _ X0 X1).
  pose proof (SIN_bound (PI * (f * i))).
  lra.
Qed.

Lemma alpha2_range (v : R) :
  1 <= v -> 0 < 1 / Math.max 0.0001 v <= 1.
Proof.
  intros Hv.
  assert (M : Math.max 0.0001 v = v) by minmax.
  rewrite M. unfold Rdiv. rewrite Rmult_1_l.
  split.
  - apply Rinv_0_lt_compat; lra.
  - rewrite <- Rinv_1. apply Rinv_le_contravar; lra.
Qed.

Lemma clamp_range (nyq x : R) :
  20 <= nyq -> 20 <= Math.min nyq (Math.max 20 x) <= nyq.
Proof. intros H. split; minmax. Qed.

(** X13.  After an update that carries a q of at least 1, at a sample rate
    with 0.45·F_s at least 20, the coefficients the next block will use keep
    every α₁α₂ within [0, 2]. *)
Lemma tuned_after_update (data : Processor.Message) (this : Processor.t)
    (v : R) :
  20 <= 0.45 * Processor._sampleRate this ->
  Processor.type data = "update" ->
  Processor.q data = Some v ->
  1 <= v ->
  Dsp.tuned (Processor.onmessage data this).
Proof.
  intros Hsr Hty Hq Hv.
  pose proof (alpha2_range v Hv) as A2.
  assert (E : Dsp.at_block_start (Processor.onmessage data this)
              = Processor._updateCoefficients (Processor.onmessage data this)).
  { unfold Dsp.at_block_start. rewrite (onmessage_update _ _ Hty).
    reflexivity. }
  assert (S : Processor._sampleRate (Processor.onmessage data this)
              = Processor._sampleRate this).
  { rewrite (onmessage_update _ _ Hty).
    destruct data as [ty [c|] [s|] [qv|] [f|]]; reflexivity. }
  assert (Q : Processor._alpha2 (Processor.onmessage data this)
              = 1 / Math.max 0.0001 v).
  { rewrite (onmessage_update _ _ Hty), Hq.
    destruct (Processor.feedback data); reflexivity. }
  unfold Dsp.tuned. rewrite E.
  set (p := Processor.onmessage data this) in *.
  unfold Processor._updateCoefficients, Processor.band_freqs.
  cbn [Processor._lowAlpha1 Processor._centreAlpha1 Processor._highAlpha1
       Processor._alpha2 Processor.set_recalc Processor.set_alpha1
       Processor.lowF Processor.centre Processor.highF].
  rewrite Q, S.
  set (nyq := Processor._sampleRate this * 0.45).
  assert (Hn : 20 <= nyq) by (unfold nyq; lra).
  set (a2 := 1 / Math.max 0.0001 v) in *.
  repeat split;
    match goal with
    | |- context [Math.sin (Math.PI * ?f / _)] =>
        pose proof (alpha1_range f (Processor._sampleRate this)
                      (clamp_range nyq _ Hn))
    end; nra.
Qed.



(** * Further properties *)

(** ** Blocks compose *)

Lemma loop_app (lowA centreA highA alpha2 fb : R) (xs ys : list R) :
  forall l : Processor.Locals,
    Processor.loop lowA centreA highA alpha2 fb l (xs ++ ys)
    = (let r1 := Processor.loop lowA centreA highA alpha2 fb l xs in
       let r2 := Processor.loop lowA centreA highA alpha2 fb (fst r1) ys in
       (fst r2, snd r1 ++ snd r2)).
Proof.
  induction xs as [|x xs IH]; intros l.
  - cbn. now destruct (Processor.loop _ _ _ _ _ l ys).
  - rewrite <- app_comm_cons, !loop_cons, IH. reflexivity.
Qed.

Lemma load_store_locals (l : Processor.Locals) (p : Processor.t) :
  Processor.load_locals (Processor.store_locals l p) = l.
Proof. now destruct l. Qed.

Lemma store_store_locals (l1 l2 : Processor.Locals) (p : Processor.t) :
  Processor.store_locals l2 (Processor.store_locals l1 p)
  = Processor.store_locals l2 p.
Proof. reflexivity. Qed.

(** X1.  Rendering [xs ++ ys] as one block is rendering [xs] and then [ys]:
    the processor ends in the same state and the samples written are the
    two outputs one after the other. *)
Theorem process_split (this : Processor.t) (xs ys : list R)
    (parameters : Processor.AudioParams) :
  let r1 := Processor.process this [[xs]] parameters in
  let r2 := Processor.process (Processor.after r1) [[ys]] parameters in
  Processor.process this [[xs ++ ys]] parameters
  = Processor.mkOutcome (Processor.after r2)
      (Processor.written r1 ++ Processor.written r2) true.
Proof.
  intros r1 r2. subst r1 r2.
  rewrite (process_nonempty this [[xs ++ ys]] parameters (xs ++ ys) [] eq_refl).
  rewrite (process_nonempty this [[xs]] parameters xs [] eq_refl).
  cbv zeta. cbn [Processor.after Processor.written].
  set (used := Dsp.at_block_start this).
  rewrite (process_nonempty _ [[ys]] parameters ys [] eq_refl).
  cbv zeta. cbn [Processor.after Processor.written].
  rewrite at_block_start_stored by apply at_block_start_clean.
  rewrite load_store_locals, store_store_locals, loop_app.
  reflexivity.
Qed.

(** ** The filter is homogeneous *)

Lemma loop_body_scaled (lowA centreA highA alpha2 fb k : R)
    (l : Processor.Locals) (x : R) :
  Processor.loop_body lowA centreA highA alpha2 fb (Worklet.scale_locals k l) (k * x)
  = (Worklet.scale_locals k
       (fst (Processor.loop_body lowA centreA highA alpha2 fb l x)),
     k * snd (Processor.loop_body lowA centreA highA alpha2 fb l x)).
Proof.
  unfold Processor.loop_body, Worklet.scale_locals.
  cbn [fst snd Processor.lowS1 Processor.lowS2 Processor.centreS1
       Processor.centreS2 Processor.highS1 Processor.highS2].
  f_equal; [f_equal; ring | field].
Qed.

Lemma loop_scaled (lowA centreA highA alpha2 fb k : R) (xs : list R) :
  forall l : Processor.Locals,
    Processor.loop lowA centreA highA alpha2 fb (Worklet.scale_locals k l)
      (map (Rmult k) xs)
    = (Worklet.scale_locals k
         (fst (Processor.loop lowA centreA highA alpha2 fb l xs)),
       map (Rmult k)
         (snd (Processor.loop lowA centreA highA alpha2 fb l xs))).
Proof.
  induction xs as [|x xs IH]; intros l.
  - reflexivity.
  - cbn [map]. rewrite !loop_cons, loop_body_scaled. cbn [fst snd map].
    rewrite IH. reflexivity.
Qed.

(** X2.  Multiplying the accumulators and every input sample by [k] multiplies
    every sample written and the accumulators left behind by [k]: the
    filter has no level of its own. *)
Theorem process_scaled (k : R) (this : Processor.t) (xs : list R)
    (parameters : Processor.AudioParams) :
  let r := Processor.process this [[xs]] parameters in
  Processor.process (Worklet.scale k this) [[map (Rmult k) xs]] parameters
  = Processor.mkOutcome (Worklet.scale k (Processor.after r))
      (map (Rmult k) (Processor.written r)) true.
Proof.
  intros r. subst r.
  rewrite (process_nonempty _ [[map (Rmult k) xs]] parameters
             (map (Rmult k) xs) [] eq_refl).
  rewrite (process_nonempty this [[xs]] parameters xs [] eq_refl).
  cbv zeta. cbn [Processor.after Processor.written].
  assert (E : Dsp.at_block_start (Worklet.scale k this)
              = Worklet.scale k (Dsp.at_block_start this)).
  { unfold Dsp.at_block_start, Worklet.scale.
    cbn [Processor._recalc Processor.store_locals].
    destruct (Processor._recalc this); reflexivity. }
  rewrite E.
  set (used := Dsp.at_block_start this).
  change (Processor.load_locals (Worklet.scale k used))
    with (Worklet.scale_locals k (Processor.load_locals used)).
  change (Processor._lowAlpha1 (Worklet.scale k used))
    with (Processor._lowAlpha1 used).
  change (Processor._centreAlpha1 (Worklet.scale k used))
    with (Processor._centreAlpha1 used).
  change (Processor._highAlpha1 (Worklet.scale k used))
    with (Processor._highAlpha1 used).
  change (Processor._alpha2 (Worklet.scale k used))
    with (Processor._alpha2 used).
  change (Processor._feedback (Worklet.scale k used))
    with (Processor._feedback used).
  rewrite loop_scaled. cbn [fst snd].
  reflexivity.
Qed.

(** From rest, the output follows the level of the input. *)
Lemma scale_at_rest (k : R) (p : Processor.t) :
  Dsp.bands p = Dsp.at_rest -> Worklet.scale k p = p.
Proof.
  intros H. destruct p. unfold Dsp.bands, Dsp.at_rest in H. cbn in H.
  injection H as -> -> -> -> -> ->.
  unfold Worklet.scale, Worklet.scale_locals, Processor.store_locals.
  cbn. rewrite !Rmult_0_r. reflexivity.
Qed.

(** ** The frequency coefficients *)

Lemma band_freqs_ordered (this : Processor.t) :
  20 <= Processor._sampleRate this * 0.45 ->
  0 <= Processor._span this ->
  let f := Processor.band_freqs this in
  20 <= Processor.lowF f
  /\ Processor.lowF f <= Processor.centre f
  /\ Processor.centre f <= Processor.highF f
  /\ Processor.highF f <= Processor._sampleRate this * 0.45.
Proof.
  intros Hsr Hspan f. subst f. unfold Processor.band_freqs.
  cbn [Processor.lowF Processor.centre Processor.highF].
  set (nyq := Processor._sampleRate this * 0.45) in *.
  set (cf := Processor._centreFreq this).
  set (sp := Processor._span this) in *.
  repeat split; minmax.
Qed.

(** The angle [π·f/F_s] of a band between 20 Hz and [0.45·F_s] lies in
    (0, 0.45·π], and grows with [f]. *)
Lemma angle_range (f sampleRate : R) :
  20 <= f <= sampleRate * 0.45 ->
  0 < Math.PI * f / sampleRate <= 0.45 * PI.
Proof.
  intros [Hlo Hhi]. unfold Math.PI.
  assert (Hsr : 0 < sampleRate) by lra.
  pose proof (Rinv_0_lt_compat _ Hsr) as Hi.
  assert (Hone : sampleRate * / sampleRate = 1) by (apply Rinv_r; lra).
  unfold Rdiv. set (i := / sampleRate) in *.
  pose proof PI_RGT_0 as Hpi.
  assert (0 < f * i) by (apply Rmult_lt_0_compat; lra).
  assert (f * i <= sampleRate * 0.45 * i) by (apply Rmult_le_compat_r; lra).
  split; nra.
Qed.

Lemma angle_monotone (f g sampleRate : R) :
  0 < sampleRate -> f <= g ->
  Math.PI * f / sampleRate <= Math.PI * g / sampleRate.
Proof.
  intros Hsr Hfg. unfold Math.PI, Rdiv.
  pose proof (Rinv_0_lt_compat _ Hsr) as Hi.
  pose proof PI_RGT_0 as Hpi.
  apply Rmult_le_compat_r; [lra |].
  apply Rmult_le_compat_l; lra.
Qed.

(** X3.  After [_updateCoefficients], at a sample rate with 0.45·F_s at least 20
    and with a span that is not negative, the three α₁ are ordered like
    the bands and lie strictly between 0 and 2. *)
Theorem alpha1_ordered (this : Processor.t) :
  20 <= Processor._sampleRate this * 0.45 ->
  0 <= Processor._span this ->
  let updated := Processor._updateCoefficients this in
  0 < Processor._lowAlpha1 updated
  /\ Processor._lowAlpha1 updated <= Processor._centreAlpha1 updated
  /\ Processor._centreAlpha1 updated <= Processor._highAlpha1 updated
  /\ Processor._highAlpha1 updated < 2.
Proof.
  intros Hsr Hspan updated. subst updated.
  destruct (band_freqs_ordered this Hsr Hspan) as (H1 & H2 & H3 & H4).
  unfold Processor._updateCoefficients.
  cbn [Processor._lowAlpha1 Processor._centreAlpha1 Processor._highAlpha1
       Processor.set_recalc Processor.set_alpha1].
  set (f := Processor.band_freqs this) in *.
  set (sr := Processor._sampleRate this) in *.
  assert (Hpos : 0 < sr) by lra.
  pose proof PI_RGT_0 as Hpi.
  pose proof (angle_range (Processor.lowF f) sr ltac:(lra)) as AL.
  pose proof (angle_range (Processor.centre f) sr ltac:(lra)) as AC.
  pose proof (angle_range (Processor.highF f) sr ltac:(lra)) as AH.
  pose proof (angle_monotone _ _ sr Hpos H2) as MLC.
  pose proof (angle_monotone _ _ sr Hpos H3) as MCH.
  unfold Math.sin.
  set (xl := Math.PI * Processor.lowF f / sr) in *.
  set (xc := Math.PI * Processor.centre f / sr) in *.
  set (xh := Math.PI * Processor.highF f / sr) in *.
  assert (SL : 0 < sin xl) by (apply sin_gt_0; lra).
  assert (SLC : sin xl <= sin xc) by (apply sin_incr_1; lra).
  assert (SCH : sin xc <= sin xh) by (apply sin_incr_1; lra).
  assert (SH : sin xh < 1).
  { rewrite <- sin_PI2. apply sin_increasing_1; lra. }
  lra.
Qed.

Lemma alpha1_ordered_witness :
  let updated := Processor._updateCoefficients Example.fresh in
  0 < Processor._lowAlpha1 updated
  /\ Processor._lowAlpha1 updated <= Processor._centreAlpha1 updated
  /\ Processor._centreAlpha1 updated <= Processor._highAlpha1 updated
  /\ Processor._highAlpha1 updated < 2.
Proof.
  apply (alpha1_ordered Example.fresh); cbn; lra.
Defined.

(** ** The cache of coefficients is never stale *)

Lemma updateCoefficients_tuning (p p' : Processor.t) :
  Worklet.tuning p = Worklet.tuning p' ->
  Dsp.alpha1s (Processor._updateCoefficients p)
  = Dsp.alpha1s (Processor._updateCoefficients p').
Proof.
  unfold Worklet.tuning. intros H. injection H as Hc Hs Hr.
  unfold Dsp.alpha1s, Processor._updateCoefficients, Processor.band_freqs.
  cbn [Processor._lowAlpha1 Processor._centreAlpha1 Processor._highAlpha1
       Processor.set_recalc Processor.set_alpha1
       Processor.lowF Processor.centre Processor.highF].
  now rewrite Hc, Hs, Hr.
Qed.

Lemma tuning_at_block_start (p : Processor.t) :
  Worklet.tuning (Dsp.at_block_start p) = Worklet.tuning p.
Proof.
  unfold Dsp.at_block_start. destruct (Processor._recalc p); reflexivity.
Qed.

Lemma coherent_onmessage (data : Processor.Message) (p : Processor.t) :
  Worklet.coherent p -> Worklet.coherent (Processor.onmessage data p).
Proof.
  intros C. unfold Processor.onmessage.
  destruct (String.eqb (Processor.type data) "update").
  - left. reflexivity.
  - exact C.
Qed.

Lemma coherent_process (p : Processor.t) (inputs : list (list (list R)))
    (parameters : Processor.AudioParams) :
  Worklet.coherent p ->
  Worklet.coherent (Processor.after (Processor.process p inputs parameters)).
Proof.
  intros C.
  destruct (nth_error inputs 0) as [[|inCh rest]|] eqn:E.
  - unfold Processor.process. rewrite E. exact C.
  - rewrite (process_nonempty _ _ _ _ _ E). cbv zeta.
    cbn [Processor.after]. right.
    set (l := fst _).
    transitivity (Dsp.alpha1s (Dsp.at_block_start p)); [reflexivity |].
    transitivity (Dsp.alpha1s (Processor._updateCoefficients p)).
    + unfold Dsp.at_block_start.
      destruct C as [C | C]; rewrite ?C; [reflexivity |].
      destruct (Processor._recalc p); [reflexivity | exact C].
    + apply updateCoefficients_tuning.
      symmetry. apply (tuning_at_block_start p).
  - unfold Processor.process. rewrite E. exact C.
Qed.

Lemma coherent_run (events : list Worklet.Event) :
  forall p : Processor.t,
    Worklet.coherent p -> Worklet.coherent (Worklet.run events p).
Proof.
  induction events as [|e events IH]; intros p C.
  - exact C.
  - apply IH. destruct e; [apply coherent_onmessage | apply coherent_process];
      exact C.
Qed.

(** X4.  Whatever messages and quanta a processor has been through since it
    was constructed, the α₁ that the next block uses are the ones
    [_updateCoefficients] computes from the centre frequency and span it
    holds now: no update is lost, and no block runs on stale
    coefficients. *)
Theorem coefficients_follow_parameters (sampleRate : R)
    (events : list Worklet.Event) :
  let p := Worklet.run events (Processor.constructor sampleRate) in
  Dsp.alpha1s (Dsp.at_block_start p)
  = Dsp.alpha1s (Processor._updateCoefficients p).
Proof.
  intros p.
  assert (C : Worklet.coherent p).
  { apply coherent_run. left. reflexivity. }
  unfold Dsp.at_block_start.
  destruct C as [C | C]; rewrite ?C; [reflexivity |].
  destruct (Processor._recalc p); [reflexivity | exact C].
Qed.

(** ** Messages merge *)

(** X5.  Two updates handled one after the other leave the processor as the
    one update that carries the fields of both, the later one winning where
    both carry a field. *)
Theorem onmessage_merge (m1 m2 : Processor.Message) (p : Processor.t) :
  Processor.type m1 = "update" ->
  Processor.type m2 = "update" ->
  Processor.onmessage m2 (Processor.onmessage m1 p)
  = Processor.onmessage (Worklet.merge m1 m2) p.
Proof.
  intros H1 H2.
  rewrite (onmessage_update m2 _ H2), (onmessage_update m1 _ H1).
  rewrite (onmessage_update (Worklet.merge m1 m2) _ eq_refl).
  destruct m1 as [t1 [c1|] [s1|] [q1|] [f1|]];
    destruct m2 as [t2 [c2|] [s2|] [q2|] [f2|]]; reflexivity.
Qed.

Lemma onmessage_merge_witness :
  Processor.onmessage (SVF.update_span 450)
    (Processor.onmessage (SVF.update_center 440) Example.fresh)
  = Processor.onmessage
      (Worklet.merge (SVF.update_center 440) (SVF.update_span 450))
      Example.fresh.
Proof.
  exact (onmessage_merge (SVF.update_center 440) (SVF.update_span 450)
           Example.fresh eq_refl eq_refl).
Defined.

(** ** From the node to the processor *)

(** X6.  [update(c, s)] on a Ready node stores both values, and once the two
    messages it posts have been delivered the processor holds [c] and [s]
    with the dirty flag set and everything else as before; the centre is
    posted before the span. *)
Theorem update_reaches_processor (c s : R) (this : SVF.t)
    (node : SVF.AudioWorkletNode) (proc : Processor.t) :
  SVF._workletNode this = Some node ->
  let r := SVF.update c s this in
  SVF.get_center (fst r) = c
  /\ SVF.get_span (fst r) = s
  /\ Worklet.posted (snd r) = [SVF.update_center c; SVF.update_span s]
  /\ Worklet.deliver (Worklet.posted (snd r)) proc
     = Processor.set_recalc true
         (Processor.set_span s (Processor.set_centreFreq c proc)).
Proof.
  intros Hn. destruct this as [o n]. cbn in Hn. subst n.
  repeat split.
Qed.

Lemma update_reaches_processor_witness :
  let r := SVF.update 440 120 Example.ready in
  SVF.get_center (fst r) = 440
  /\ SVF.get_span (fst r) = 120
  /\ Worklet.posted (snd r) = [SVF.update_center 440; SVF.update_span 120]
  /\ Worklet.deliver (Worklet.posted (snd r)) Example.fresh
     = Processor.set_recalc true
         (Processor.set_span 120 (Processor.set_centreFreq 440 Example.fresh)).
Proof.
  exact (update_reaches_processor 440 120 Example.ready
           (SVF.mkNode SVF.defaults) Example.fresh eq_refl).
Defined.

(** X7.  [dispose] of a Ready node makes four host calls, in this order:
    [super.dispose()], the message [{feedback: 0}], [this.input.disconnect()]
    and [node.disconnect()].  The message is thus posted after whatever
    [super.dispose()] does and before the two disconnections of the class
    itself; delivered, it sets the feedback of the processor to 0 and
    leaves its other parameters and its accumulators alone.  The options
    survive, and a second [dispose] calls [super.dispose()] only and
    changes nothing. *)
Theorem dispose_silences_feedback (this : SVF.t)
    (node : SVF.AudioWorkletNode) (proc : Processor.t) :
  SVF._workletNode this = Some node ->
  let r := SVF.dispose this in
  snd r = [SVF.SuperDispose; SVF.PostMessage (SVF.update_feedback 0);
           SVF.DisconnectInput; SVF.DisconnectNode]
  /\ Worklet.deliver (Worklet.posted (snd r)) proc
     = Processor.set_recalc true (Processor.set_feedback 0 proc)
  /\ SVF._options (fst r) = SVF._options this
  /\ SVF.dispose (fst r) = (fst r, [SVF.SuperDispose]).
Proof.
  intros Hn. destruct this as [o n]. cbn in Hn. subst n.
  repeat split.
Qed.

Lemma dispose_silences_feedback_witness :
  let r := SVF.dispose Example.ready in
  snd r = [SVF.SuperDispose; SVF.PostMessage (SVF.update_feedback 0);
           SVF.DisconnectInput; SVF.DisconnectNode]
  /\ Worklet.deliver (Worklet.posted (snd r)) Example.struck
     = Processor.set_recalc true (Processor.set_feedback 0 Example.struck)
  /\ SVF._options (fst r) = SVF._options Example.ready
  /\ SVF.dispose (fst r) = (fst r, [SVF.SuperDispose]).
Proof.
  exact (dispose_silences_feedback Example.ready (SVF.mkNode SVF.defaults)
           Example.struck eq_refl).
Defined.

(** ** Registering the processor *)

(** With the static flag set, [_initWorklet] does not call [addModule],
    whatever context it finds and whatever the host answers, and the flag
    stays set. *)
Lemma init_when_loaded (context : option SVF.Context) (host : SVF.InitHost)
    (this : SVF.t) :
  let r := SVF._initWorklet context true host this in
  snd r = true
  /\ forall c : nat, ~ In (SVF.AddModule c) (SVF.effects_of (fst r)).
Proof.
  unfold SVF._initWorklet, SVF._initWorklet_start, SVF._initWorklet_node.
  destruct context as [[i w]|]; [destruct w |]; cbn;
    destruct host as [a [] [] []]; cbn;
    (split; [reflexivity |]);
    intros c H; repeat (destruct H as [H | H]; try discriminate H);
    exact H.
Qed.

Lemma construct_all_loaded (inits : list SVF.Init) :
  snd (SVF.construct_all inits true) = true
  /\ forall c : nat, ~ In (SVF.AddModule c) (fst (SVF.construct_all inits true)).
Proof.
  induction inits as [|i inits [IH1 IH2]].
  - split; [reflexivity | intros c []].
  - cbn [SVF.construct_all fst snd].
    destruct (init_when_loaded (SVF.init_context i) (SVF.init_host i)
                (SVF.constructor (SVF.init_options i))) as [F N].
    cbv zeta in F, N. rewrite F.
    split; [exact IH1 |].
    intros c H. apply in_app_or in H. destruct H as [H | H].
    + exact (N c H).
    + exact (IH2 c H).
Qed.

(** With the flag clear, one [_initWorklet] either leaves it clear and
    tries to create no node, or sets it, after one call of [addModule] that
    comes first. *)
Lemma init_when_not_loaded (context : option SVF.Context)
    (host : SVF.InitHost) (this : SVF.t) :
  let r := SVF._initWorklet context false host this in
  (snd r = false
   /\ forall c : nat, ~ In (SVF.NewNode c) (SVF.effects_of (fst r)))
  \/ (snd r = true
      /\ exists (c : nat) (rest : list SVF.Effect),
           SVF.effects_of (fst r) = SVF.AddModule c :: rest
           /\ forall c' : nat, ~ In (SVF.AddModule c') rest).
Proof.
  unfold SVF._initWorklet, SVF._initWorklet_start, SVF._initWorklet_resume,
    SVF._initWorklet_node.
  destruct context as [[i w]|]; [destruct w |]; cbn.
  - destruct host as [[] [] [] []]; cbn;
      try (right; split; [reflexivity |];
           eexists; eexists; split; [reflexivity |];
           intros c' H; repeat (destruct H as [H | H]; try discriminate H);
           exact H);
      (left; split; [reflexivity |];
       intros c H; repeat (destruct H as [H | H]; try discriminate H);
       exact H).
  - left. split; [reflexivity | intros c []].
  - left. split; [reflexivity | intros c []].
Qed.

(** A list cut at one of its elements, when the list starts with another
    element. *)
Lemma cut_after_head {A : Type} (x y : A) (l before after : list A) :
  x <> y ->
  x :: l = before ++ y :: after ->
  exists before' : list A, l = before' ++ y :: after.
Proof.
  intros Hxy H. destruct before as [|b before]; cbn in H.
  - injection H as H _. contradiction.
  - injection H as _ H. now exists before.
Qed.

Lemma cut_in_second {A : Type} (y : A) (l1 l2 before after : list A) :
  ~ In y l1 ->
  l1 ++ l2 = before ++ y :: after ->
  exists before' : list A, l2 = before' ++ y :: after.
Proof.
  revert before. induction l1 as [|x l1 IH]; intros before Hn H.
  - now exists before.
  - cbn in H. destruct before as [|b before]; cbn in H.
    + injection H as H _. exfalso. apply Hn. left. exact H.
    + injection H as _ H. apply (IH before); [| exact H].
      intros K. apply Hn. right. exact K.
Qed.

(** X8.  The processor module is added once per page, not once per
    context.  Through any sequence of constructions, on whatever contexts
    and whatever the host answers: when the static flag is set at the
    start, no [addModule] call is made at all and the flag stays set; and
    in every case, once a first [new AudioWorkletNode] has been attempted,
    no [addModule] call follows, so every later node is created, on
    whatever context, without the module being added there. *)
Theorem module_added_once (inits : list SVF.Init) (workletLoaded : bool) :
  let trace := fst (SVF.construct_all inits workletLoaded) in
  (workletLoaded = true ->
   snd (SVF.construct_all inits workletLoaded) = true
   /\ forall c : nat, ~ In (SVF.AddModule c) trace)
  /\ (forall (before after : list SVF.Effect) (c : nat),
        trace = before ++ SVF.NewNode c :: after ->
        forall c' : nat, ~ In (SVF.AddModule c') after).
Proof.
  cbv zeta. split.
  - intros ->. apply construct_all_loaded.
  - revert workletLoaded.
    induction inits as [|i inits IH]; intros workletLoaded before after c H.
    + destruct before; discriminate H.
    + destruct workletLoaded.
      * destruct (construct_all_loaded (i :: inits)) as [_ N].
        intros c' K. apply (N c'). rewrite H.
        apply in_or_app. right. right. exact K.
      * cbn [SVF.construct_all fst snd] in H.
        destruct (init_when_not_loaded (SVF.init_context i) (SVF.init_host i)
                    (SVF.constructor (SVF.init_options i)))
          as [[F N] | [F (c0 & rest & E & N)]]; cbv zeta in F, N.
        -- rewrite F in H.
           destruct (cut_in_second _ _ _ _ _ (N c) H) as [before' H'].
           exact (IH false before' after c H').
        -- cbv zeta in E. rewrite F, E in H.
           destruct (construct_all_loaded inits) as [_ N'].
           cbn [app] in H.
           assert (Hne : SVF.AddModule c0 <> SVF.NewNode c) by discriminate.
           destruct (cut_after_head _ _ _ _ _ Hne H) as [before' H'].
           intros c' K.
           assert (M : In (SVF.AddModule c')
                         (rest ++ fst (SVF.construct_all inits true))).
           { rewrite H'. apply in_or_app. right. right. exact K. }
           apply in_app_or in M. destruct M as [M | M].
           ++ exact (N c' M).
           ++ exact (N' c' M).
Qed.

(** Two constructions, the first on context 1 and the second on context 2,
    in a host where every call succeeds: the module is added to context 1
    only, and the second node is created on context 2. *)
Lemma module_added_once_witness :
  let inits :=
    [SVF.mkInit (Some (SVF.mkContext 1 true)) Host.willing
       (SVF.mkOptionsArg None None None None);
     SVF.mkInit (Some (SVF.mkContext 2 true)) Host.willing
       (SVF.mkOptionsArg None None None None)] in
  fst (SVF.construct_all inits false)
  = [SVF.AddModule 1; SVF.NewNode 1; SVF.ConnectInput; SVF.ConnectOutput;
     SVF.NewNode 2; SVF.ConnectInput; SVF.ConnectOutput]
  /\ forall c' : nat,
       ~ In (SVF.AddModule c')
            [SVF.ConnectInput; SVF.ConnectOutput;
             SVF.NewNode 2; SVF.ConnectInput; SVF.ConnectOutput].
Proof.
  split; [reflexivity |].
  exact (proj2 (module_added_once
                  [SVF.mkInit (Some (SVF.mkContext 1 true)) Host.willing
                     (SVF.mkOptionsArg None None None None);
                   SVF.mkInit (Some (SVF.mkContext 2 true)) Host.willing
                     (SVF.mkOptionsArg None None None None)] false)
           [SVF.AddModule 1] _ 1%nat eq_refl).
Defined.

(** ** Disposing of a node that is still loading *)

(** X9.  [dispose] does not cancel a pending [_initWorklet].  A node
    constructed while the module is not flagged as loaded is suspended at
    [addModule] with its worklet node still null, so [dispose] called then
    calls [super.dispose()] only.  When [addModule] resolves and the
    constructor of the AudioWorkletNode returns, the node is stored in the
    disposed instance, whether or not the [connect] calls that follow
    throw, and the flag is set; from then on every setter writes the
    AudioParam and posts its message. *)
Theorem dispose_while_loading (c : SVF.Context) (host : SVF.InitHost)
    (workletLoaded : bool) (this : SVF.t) (p : SVF.Param) (v : R) :
  SVF.audioWorklet c = true ->
  SVF._workletNode this = None ->
  SVF.addModuleOk host = true ->
  SVF.newNodeOk host = true ->
  SVF._initWorklet_start (Some c) false host this
  = SVF.Awaiting c [SVF.AddModule (SVF.context_id c)]
  /\ SVF.dispose this = (this, [SVF.SuperDispose])
  /\ (let r := SVF._initWorklet_resume c workletLoaded host
                 (fst (SVF.dispose this)) in
      let this' := SVF.this_of (fst r) in
      snd r = true
      /\ SVF._workletNode this' = Some (SVF.mkNode (SVF._options this))
      /\ snd (SVF.set p v this')
         = [SVF.SetParam (SVF.name p) v; SVF.PostMessage (SVF.message p v)]).
Proof.
  intros Hw Hn Ha Hc.
  destruct this as [o n]. cbn in Hn. subst n.
  destruct c as [i w]. cbn in Hw. subst w.
  destruct host as [a nn ci co]. cbn in Ha, Hc. subst a nn.
  split; [reflexivity | split; [reflexivity |]].
  cbn. destruct ci, co; cbn; (split; [reflexivity | split; [reflexivity |]]);
    destruct p; reflexivity.
Qed.

Lemma dispose_while_loading_witness :
  SVF._initWorklet_start (Some Host.native) false Host.unconnected
    Example.built
  = SVF.Awaiting Host.native [SVF.AddModule 2]
  /\ SVF.dispose Example.built = (Example.built, [SVF.SuperDispose])
  /\ (let r := SVF._initWorklet_resume Host.native false Host.unconnected
                 (fst (SVF.dispose Example.built)) in
      let this' := SVF.this_of (fst r) in
      snd r = true
      /\ SVF._workletNode this'
         = Some (SVF.mkNode (SVF._options Example.built))
      /\ snd (SVF.set SVF.Center 5 this')
         = [SVF.SetParam "center" 5; SVF.PostMessage (SVF.update_center 5)]).
Proof.
  exact (dispose_while_loading Host.native Host.unconnected false
           Example.built SVF.Center 5 eq_refl eq_refl eq_refl eq_refl).
Defined.

(** ** The fallback bank *)

Lemma updateFrequencies_ordered (raw : option R) (this : Simple.t) :
  20 <= Simple.nyquist raw ->
  Bank.ordered (Simple.nyquist raw)
    (Bank.freqs (Simple._updateFrequencies raw this)).
Proof.
  intros H. unfold Bank.ordered, Bank.freqs, Simple._updateFrequencies.
  cbn [Simple._low Simple._centre Simple._high Simple.frequency
       Processor.lowF Processor.centre Processor.highF].
  set (nyq := Simple.nyquist raw) in *.
  set (c := Simple.center (Simple._options this)).
  set (s := Simple.span (Simple._options this)).
  repeat split; minmax.
Qed.

(** X10.  After the centre or the span of the bank has been set to any value,
    a negative span included, the three stages are tuned in order between
    20 Hz and the Nyquist frequency the bank reads from the host. *)
Theorem bank_bands_ordered (raw : option R) (v : R) (this : Simple.t) :
  20 <= Simple.nyquist raw ->
  Bank.ordered (Simple.nyquist raw)
    (Bank.freqs (Simple.set_center raw v this))
  /\ Bank.ordered (Simple.nyquist raw)
       (Bank.freqs (Simple.set_span raw v this)).
Proof.
  intros H. split; apply updateFrequencies_ordered; exact H.
Qed.

Lemma nyquist_48000 : Simple.nyquist (Some 48000) = 24000.
Proof.
  unfold Simple.nyquist. destruct (Req_dec_T 48000 0); lra.
Qed.

Lemma bank_bands_ordered_witness :
  Bank.ordered (Simple.nyquist (Some 48000))
    (Bank.freqs (Simple.set_center (Some 48000) 5 Example.bank))
  /\ Bank.ordered (Simple.nyquist (Some 48000))
       (Bank.freqs (Simple.set_span (Some 48000) 5 Example.bank)).
Proof.
  apply (bank_bands_ordered (Some 48000) 5 Example.bank).
  rewrite nyquist_48000. lra.
Defined.

Lemma settled_updateFrequencies (raw : option R) (this : Simple.t) :
  20 <= Simple.nyquist raw ->
  Simple.Q (Simple._low this) = Math.max 0.5 (Simple.q (Simple._options this)) ->
  Simple.Q (Simple._centre this) = Math.max 0.5 (Simple.q (Simple._options this)) ->
  Simple.Q (Simple._high this) = Math.max 0.5 (Simple.q (Simple._options this)) ->
  Simple._lowGain this = 1 / 3 ->
  Simple._centreGain this = 1 / 3 ->
  Simple._highGain this = 1 / 3 ->
  Bank.settled (Simple._updateFrequencies raw this).
Proof.
  intros H Ql Qc Qh Gl Gc Gh.
  destruct (updateFrequencies_ordered raw this H) as (O1 & O2 & O3 & _).
  unfold Bank.settled. cbv zeta.
  repeat split; try assumption.
Qed.

Lemma settled_set_center (raw : option R) (v : R) (this : Simple.t) :
  20 <= Simple.nyquist raw ->
  Bank.settled this -> Bank.settled (Simple.set_center raw v this).
Proof.
  intros H (Ql & Qc & Qh & Gl & Gc & Gh & _).
  apply settled_updateFrequencies; assumption.
Qed.

Lemma settled_set_span (raw : option R) (v : R) (this : Simple.t) :
  20 <= Simple.nyquist raw ->
  Bank.settled this -> Bank.settled (Simple.set_span raw v this).
Proof.
  intros H (Ql & Qc & Qh & Gl & Gc & Gh & _).
  apply settled_updateFrequencies; assumption.
Qed.

Lemma settled_set_q (v : R) (this : Simple.t) :
  Bank.settled this -> Bank.settled (Simple.set_q v this).
Proof.
  intros (_ & _ & _ & Gl & Gc & Gh & O1 & O2 & O3).
  unfold Bank.settled. cbv zeta. repeat split; assumption.
Qed.

Lemma settled_constructor (raw : option R) (options : Simple.OptionsArg) :
  20 <= Simple.nyquist raw ->
  Bank.settled (Simple.constructor raw options).
Proof.
  intros H. unfold Simple.constructor. cbv zeta.
  set (t0 := Simple.mk _ _ _ _ _ _ _).
  destruct (updateFrequencies_ordered raw t0 H) as (O1 & O2 & O3 & _).
  unfold Bank.settled. cbv zeta. repeat split; assumption.
Qed.

Lemma settled_call (raw : option R) (c : Bank.Call) (this : Simple.t) :
  20 <= Simple.nyquist raw ->
  Bank.settled this -> Bank.settled (Bank.call raw this c).
Proof.
  intros H S. destruct c as [v | v | v | [c|] [s|] |]; cbn [Bank.call].
  - now apply settled_set_center.
  - now apply settled_set_span.
  - now apply settled_set_q.
  - unfold Simple.update. apply settled_set_span; [exact H |].
    now apply settled_set_center.
  - unfold Simple.update. now apply settled_set_center.
  - unfold Simple.update. now apply settled_set_span.
  - exact S.
  - exact S.
Qed.

(** X11.  From its construction on and through every sequence of setter,
    [update] and [dispose] calls, in hosts whose Nyquist frequency is at
    least 20 Hz, the bank keeps its three stages at the Q [max(0.5, q)] of
    the current option, its three gains at a third, and its three
    frequencies at least 20 Hz and in order. *)
Theorem bank_stays_settled (raw : option R) (options : Simple.OptionsArg)
    (calls : list (option R * Bank.Call)) :
  20 <= Simple.nyquist raw ->
  Forall (fun rc => 20 <= Simple.nyquist (fst rc)) calls ->
  Bank.settled (Bank.run calls (Simple.constructor raw options)).
Proof.
  intros H Hall.
  pose proof (settled_constructor raw options H) as S.
  revert S. generalize (Simple.constructor raw options).
  induction Hall as [|rc calls Hrc Hall IH]; intros t S.
  - exact S.
  - cbn [Bank.run fold_left]. apply IH. now apply settled_call.
Qed.

Lemma bank_stays_settled_witness :
  Bank.settled
    (Bank.run
       [(Some 48000, Bank.SetCenter 5); (None, Bank.SetSpan (-3));
        (Some 48000, Bank.SetQ 0.1); (None, Bank.Update (Some 900) None);
        (Some 48000, Bank.Dispose); (Some 48000, Bank.SetSpan 50000)]
       (Simple.constructor (Some 48000)
          (Simple.mkOptionsArg None None None))).
Proof.
  apply (bank_stays_settled (Some 48000)
           (Simple.mkOptionsArg None None None)).
  - rewrite nyquist_48000. lra.
  - repeat constructor; cbn [fst]; rewrite ?nyquist_48000;
      unfold Simple.nyquist; lra.
Defined.

(** ** The two implementations are tuned alike *)

(** X12.  For a span that is not negative and bands that stay below
    [0.45·F_s], the bank in a host at the sample rate [F_s] and the
    processor at the same rate put their three bands at the same
    frequencies for the same centre and span. *)
Theorem same_tuning (cf sp : R) (proc : Processor.t) (bank : Simple.t) :
  0 <= sp ->
  20 + sp <= Processor._sampleRate proc * 0.45 ->
  cf + sp <= Processor._sampleRate proc * 0.45 ->
  let raw := Some (Processor._sampleRate proc) in
  Bank.freqs (Simple.set_span raw sp (Simple.set_center raw cf bank))
  = Processor.band_freqs
      (Worklet.deliver [SVF.update_center cf; SVF.update_span sp] proc).
Proof.
  intros Hsp H20 Hcf raw. subst raw.
  set (sr := Processor._sampleRate proc) in *.
  assert (N : Simple.nyquist (Some sr) = sr / 2).
  { unfold Simple.nyquist. destruct (Req_dec_T sr 0); [lra | reflexivity]. }
  unfold Bank.freqs, Simple.set_span, Simple.set_center,
    Simple._updateFrequencies, Processor.band_freqs.
  cbn [Simple._low Simple._centre Simple._high Simple.frequency
       Simple._options Simple.with_options Simple.center Simple.span
       Worklet.deliver fold_left].
  rewrite N.
  change (Processor._sampleRate
            (Processor.onmessage (SVF.update_span sp)
               (Processor.onmessage (SVF.update_center cf) proc)))
    with sr.
  change (Processor._centreFreq
            (Processor.onmessage (SVF.update_span sp)
               (Processor.onmessage (SVF.update_center cf) proc)))
    with cf.
  change (Processor._span
            (Processor.onmessage (SVF.update_span sp)
               (Processor.onmessage (SVF.update_center cf) proc)))
    with sp.
  f_equal; minmax.
Qed.

Lemma same_tuning_witness :
  let raw := Some (Processor._sampleRate Example.fresh) in
  Bank.freqs (Simple.set_span raw 400 (Simple.set_center raw 1200 Example.bank))
  = Processor.band_freqs
      (Worklet.deliver [SVF.update_center 1200; SVF.update_span 400]
         Example.fresh).
Proof.
  apply (same_tuning 1200 400 Example.fresh Example.bank); cbn; lra.
Defined.

(** Where they differ: the bank takes a negative span as 0, the processor
    takes it as it is and swaps the outer bands. *)
Lemma negative_span_differs :
  Bank.freqs (Simple.set_span (Some 48000) (-300) Example.bank)
  = Processor.mkFreqs 600 600 600
  /\ Processor.band_freqs Example.negative_span
     = Processor.mkFreqs 900 600 300.
Proof.
  split; [| exact band_freqs_negative_span].
  unfold Bank.freqs, Simple.set_span, Simple._updateFrequencies.
  cbn -[Simple.nyquist]. rewrite nyquist_48000.
  f_equal; minmax.
Qed.

(** ** Damping after an update *)

Lemma tuned_after_update_witness :
  Dsp.tuned (Processor.onmessage (SVF.update_q 2) Example.fresh).
Proof.
  apply (tuned_after_update (SVF.update_q 2) Example.fresh 2).
  - cbn. lra.
  - reflexivity.
  - reflexivity.
  - lra.
Defined.



(** ** resolveBaseAudioContext *)

Section Search.

Import AudioContext.

Variable heap : Heap.

Lemma has_In (visited : list ref) (c : ref) :
  has visited c = true <-> In c visited.
Proof.
  unfold has. rewrite existsb_exists. split.
  - intros (x & Hx & E). apply Nat.eqb_eq in E. now subst.
  - intros H. exists c. split; [exact H | apply Nat.eqb_refl].
Qed.

Lemma has_cons (visited : list ref) (c i : ref) :
  has (c :: visited) i = Nat.eqb i c || has visited i.
Proof. reflexivity. Qed.

Lemma pushed_length (c : ref) : (List.length (pushed heap c) <= 3)%nat.
Proof.
  unfold pushed, push_if.
  destruct (rawContext (heap c)), (context (heap c)), (_context (heap c));
    cbn; repeat constructor.
Qed.

(** More fuel does not change a result. *)
Lemma search_more_fuel (fuel : nat) :
  forall (queue visited : list ref) (r : option ref) (k : nat),
    search fuel heap queue visited = Some r ->
    search (fuel + k) heap queue visited = Some r.
Proof.
  induction fuel as [|fuel IH]; intros queue visited r k H.
  - discriminate.
  - cbn [Nat.add search] in *. destruct queue as [|c queue]; [exact H |].
    destruct (has visited c); [now apply IH |].
    destruct (isAudioContext (heap c)); [exact H | now apply IH].
Qed.

Lemma reachable_incl (from from' : list ref) (x : ref) :
  incl from from' -> reachable heap from x -> reachable heap from' x.
Proof.
  intros I H. induction H as [r Hr | x y _ IH Hy].
  - apply reach_root. now apply I.
  - now apply reach_step with x.
Qed.

Lemma reachable_pushed (c : ref) (queue : list ref) (x : ref) :
  reachable heap (queue ++ pushed heap c) x ->
  reachable heap (c :: queue) x.
Proof.
  intros H. induction H as [r Hr | x y _ IH Hy].
  - apply in_app_or in Hr. destruct Hr as [Hr | Hr].
    + apply reach_root. now right.
    + apply reach_step with c; [apply reach_root; now left | exact Hr].
  - now apply reach_step with x.
Qed.

Lemma reachable_expand (c : ref) (queue : list ref) (x : ref) :
  reachable heap (c :: queue) x ->
  x = c \/ reachable heap (queue ++ pushed heap c) x.
Proof.
  intros H. induction H as [r [Hr | Hr] | x y _ [IH | IH] Hy].
  - left. now symmetry.
  - right. apply reach_root. apply in_or_app. now left.
  - subst x. right. apply reach_root. apply in_or_app. now right.
  - right. now apply reach_step with x.
Qed.

Lemma reachable_skip (c : ref) (queue visited : list ref) (x : ref) :
  explored heap (c :: queue) visited ->
  In c visited ->
  reachable heap (c :: queue) x ->
  In x visited \/ reachable heap queue x.
Proof.
  intros [_ Hb] Hc H. induction H as [r [Hr | Hr] | x y _ [IH | IH] Hy].
  - subst r. now left.
  - right. now apply reach_root.
  - destruct (Hb x y IH Hy) as [Hv | [Hq | Hq]].
    + now left.
    + subst y. now left.
    + right. now apply reach_root.
  - right. now apply reach_step with x.
Qed.

Lemma search_sound (fuel : nat) :
  forall (queue visited : list ref) (c : ref),
    search fuel heap queue visited = Some (Some c) ->
    isAudioContext (heap c) = true /\ reachable heap queue c.
Proof.
  induction fuel as [|fuel IH]; intros queue visited c H.
  - discriminate.
  - cbn [search] in H. destruct queue as [|c0 queue]; [discriminate |].
    destruct (has visited c0).
    + destruct (IH _ _ _ H) as [A B]. split; [exact A |].
      apply reachable_incl with queue; [| exact B].
      intros z Hz. now right.
    + destruct (isAudioContext (heap c0)) eqn:E.
      * injection H as <-. split; [exact E |].
        apply reach_root. now left.
      * destruct (IH _ _ _ H) as [A B]. split; [exact A |].
        now apply reachable_pushed.
Qed.

Lemma search_complete (fuel : nat) :
  forall queue visited : list ref,
    explored heap queue visited ->
    search fuel heap queue visited = Some None ->
    forall x : ref,
      In x visited \/ reachable heap queue x ->
      isAudioContext (heap x) = false.
Proof.
  induction fuel as [|fuel IH]; intros queue visited Ex H x Hx.
  - discriminate.
  - cbn [search] in H. destruct queue as [|c queue].
    + destruct Hx as [Hx | Hx]; [now apply (proj1 Ex) |].
      exfalso. induction Hx as [r [] | ]; assumption.
    + destruct (has visited c) eqn:Hc.
      * apply has_In in Hc.
        apply (IH queue visited); [| exact H |].
        -- destruct Ex as [Ea Eb]. split; [exact Ea |].
           intros a b Ha Hb. destruct (Eb a b Ha Hb) as [Hv | [Hq | Hq]].
           ++ now left.
           ++ subst b. now left.
           ++ now right.
        -- destruct Hx as [Hx | Hx]; [now left |].
           now apply reachable_skip with c.
      * destruct (isAudioContext (heap c)) eqn:E; [discriminate |].
        apply (IH (queue ++ pushed heap c) (c :: visited)); [| exact H |].
        -- destruct Ex as [Ea Eb]. split.
           ++ intros a [Ha | Ha]; [now subst a | now apply Ea].
           ++ intros a b [Ha | Ha] Hb.
              ** subst a. right. apply in_or_app. now right.
              ** destruct (Eb a b Ha Hb) as [Hv | [Hq | Hq]].
                 --- left. now right.
                 --- subst b. left. now left.
                 --- right. apply in_or_app. now left.
        -- destruct Hx as [Hx | Hx]; [left; now right |].
           destruct (reachable_expand _ _ _ Hx) as [-> | R].
           ++ left. now left.
           ++ now right.
Qed.

(** X15.  What [resolveBaseAudioContext] returns is right: an object it returns
    is an audio context that can be reached from [Tone.context] or from
    [Tone.getContext()] along [rawContext], [context] and [_context]; and
    it returns [null] only when no object that can be reached so is an
    audio context. *)
Theorem resolve_correct (fuel : nat) (toneContext : option ref)
    (getContext : option (option ref)) (result : option ref) :
  resolveBaseAudioContext fuel heap toneContext getContext = Some result ->
  match result with
  | Some c =>
      isAudioContext (heap c) = true
      /\ reachable heap (roots toneContext getContext) c
  | None =>
      forall x : ref,
        reachable heap (roots toneContext getContext) x ->
        isAudioContext (heap x) = false
  end.
Proof.
  unfold resolveBaseAudioContext. intros H. destruct result as [c|].
  - now apply search_sound with fuel [].
  - intros x Hx.
    apply (search_complete fuel (roots toneContext getContext) []).
    + split; [intros a [] | intros a b []].
    + exact H.
    + now right.
Qed.

Lemma unvisited_other (l : list ref) (c : ref) (visited : list ref) :
  ~ In c l ->
  filter (fun i => negb (has (c :: visited) i)) l
  = filter (fun i => negb (has visited i)) l.
Proof.
  intros H. apply filter_ext_in. intros a Ha. rewrite has_cons.
  destruct (Nat.eqb_spec a c) as [-> | _]; [contradiction | reflexivity].
Qed.

Lemma unvisited_visit (l : list ref) (c : ref) (visited : list ref) :
  NoDup l -> In c l -> has visited c = false ->
  S (List.length (filter (fun i => negb (has (c :: visited) i)) l))
  = List.length (filter (fun i => negb (has visited i)) l).
Proof.
  intros ND. induction ND as [|a l Ha ND IH]; intros Hc Hv.
  - destruct Hc.
  - cbn [filter]. rewrite has_cons.
    destruct (Nat.eqb_spec a c) as [-> | Hne].
    + cbn [orb negb]. rewrite Hv. cbn [negb List.length].
      now rewrite unvisited_other.
    + cbn [orb]. destruct Hc as [Hc | Hc]; [congruence |].
      destruct (has visited a); cbn [negb List.length];
        now rewrite <- (IH Hc Hv).
Qed.

Lemma unvisited_cons (n : nat) (c : ref) (visited : list ref) :
  (c < n)%nat -> has visited c = false ->
  S (unvisited n (c :: visited)) = unvisited n visited.
Proof.
  intros Hc Hv. unfold unvisited. apply unvisited_visit.
  - apply seq_NoDup.
  - apply in_seq. split; [apply Nat.le_0_l | exact Hc].
  - exact Hv.
Qed.

Lemma search_terminates (n : nat) (Hclosed : closed heap n) (fuel : nat) :
  forall queue visited : list ref,
    Forall (fun r => (r < n)%nat) queue ->
    (List.length queue + 3 * unvisited n visited < fuel)%nat ->
    search fuel heap queue visited <> None.
Proof.
  induction fuel as [|fuel IH]; intros queue visited Hq Hm.
  - lia.
  - cbn [search]. destruct queue as [|c queue]; [discriminate |].
    inversion Hq as [|? ? Hc Hq']; subst.
    cbn [List.length] in Hm.
    destruct (has visited c) eqn:Hv.
    + apply IH; [exact Hq' | lia].
    + destruct (isAudioContext (heap c)); [discriminate |].
      apply IH.
      * apply Forall_app. split; [exact Hq' |].
        apply Forall_forall. intros y Hy. now apply (Hclosed c y).
      * rewrite length_app.
        pose proof (pushed_length c) as P.
        pose proof (unvisited_cons n c visited Hc Hv) as U.
        lia.
Qed.

(** X16.  [resolveBaseAudioContext] ends on every finite object graph, cycles
    included: when the objects are numbered below [n] and point to each
    other only, the loop has ended within [2 + 3·n] iterations, and
    running it longer gives the same result. *)
Theorem resolve_terminates (n : nat) (toneContext : option ref)
    (getContext : option (option ref)) :
  closed heap n ->
  Forall (fun r => (r < n)%nat) (roots toneContext getContext) ->
  exists result : option ref,
    forall fuel : nat,
      (2 + 3 * n < fuel)%nat ->
      resolveBaseAudioContext fuel heap toneContext getContext = Some result.
Proof.
  intros Hclosed Hroots. unfold resolveBaseAudioContext.
  set (q := roots toneContext getContext) in *.
  assert (Lq : (List.length q <= 2)%nat).
  { unfold q, roots, push_if.
    destruct toneContext, getContext as [[|]|]; cbn; repeat constructor. }
  assert (Lu : (unvisited n [] <= n)%nat).
  { unfold unvisited.
    eapply Nat.le_trans; [apply filter_length_le |]. now rewrite length_seq. }
  assert (M : (List.length q + 3 * unvisited n [] < 3 + 3 * n)%nat) by lia.
  destruct (search (3 + 3 * n) heap q []) as [result|] eqn:E.
  - exists result. intros fuel Hf.
    replace fuel with ((3 + 3 * n) + (fuel - (3 + 3 * n)))%nat by lia.
    now apply search_more_fuel.
  - exfalso. revert E. now apply (search_terminates n Hclosed).
Qed.

End Search.

Lemma resolve_correct_witness :
  AudioContext.isAudioContext (Host.heap 2%nat) = true
  /\ AudioContext.reachable Host.heap
       (AudioContext.roots (Some 0%nat) (Some (Some 0%nat))) 2%nat.
Proof.
  exact (resolve_correct Host.heap 9 (Some 0%nat) (Some (Some 0%nat))
           (Some 2%nat) eq_refl).
Defined.

(** In a host without an audio context the result is [null], cycle or
    not. *)
Lemma resolve_null :
  AudioContext.resolveBaseAudioContext 9 Host.heap_without (Some 0%nat)
    (Some (Some 0%nat)) = Some None
  /\ AudioContext.resolveBaseAudioContext 9 Host.heap None None = Some None.
Proof. split; reflexivity. Qed.

Lemma host_closed : AudioContext.closed Host.heap 3.
Proof.
  intros x y Hx Hy.
  destruct x as [|[|[|x]]]; cbn in Hy; try lia; intuition lia.
Qed.

Lemma resolve_terminates_witness :
  exists result : option AudioContext.ref,
    forall fuel : nat,
      (2 + 3 * 3 < fuel)%nat ->
      AudioContext.resolveBaseAudioContext fuel Host.heap (Some 0%nat)
        (Some (Some 0%nat)) = Some result.
Proof.
  apply (resolve_terminates Host.heap 3 (Some 0%nat) (Some (Some 0%nat))).
  - exact host_closed.
  - repeat constructor.
Defined.

(** ** The application's settings *)

Lemma clampFrequency_range (f : R) : 80 <= App.clampFrequency f <= 6000.
Proof.
  unfold App.clampFrequency, App.SYNTH_FILTER_FREQUENCY_MIN,
    App.SYNTH_FILTER_FREQUENCY_MAX. split; minmax.
Qed.

Lemma clampSynthFilterSpan_range (s : R) :
  40 <= App.clampSynthFilterSpan s <= 1800.
Proof.
  unfold App.clampSynthFilterSpan, App.SYNTH_FILTER_SPAN_MIN,
    App.SYNTH_FILTER_SPAN_MAX. split; minmax.
Qed.

Lemma clampQ_range (q : R) : 2 <= App.clampQ q <= 30.
Proof.
  unfold App.clampQ, App.SYNTH_FILTER_Q_MIN, App.SYNTH_FILTER_Q_MAX.
  split; minmax.
Qed.

(** X17.  Whichever implementation is in place, after
    [applySynthFilterSettings] the node reports, for each setting that was
    given, the value clamped to the application's range (centre 80 to 6000,
    span 40 to 1800, q 2 to 30), and for each setting that was left out the
    value it had; the class of the node does not change. *)
Theorem settings_reach_node (raw : option R) (settings : App.Settings)
    (filter : App.SynthFilter) :
  exists filter' : App.SynthFilter,
    fst (App.applySynthFilterSettings raw settings (Some filter))
    = Some filter'
    /\ App.center filter'
       = match App.frequency settings with
         | Some f => App.clampFrequency f
         | None => App.center filter
         end
    /\ App.span_of filter'
       = match App.span settings with
         | Some s => App.clampSynthFilterSpan s
         | None => App.span_of filter
         end
    /\ App.q_of filter'
       = match App.q settings with
         | Some q => App.clampQ q
         | None => App.q_of filter
         end
    /\ match filter, filter' with
       | App.SVFNode node, App.SVFNode node' =>
           SVF._workletNode node' = SVF._workletNode node
           /\ SVF.get_feedback node' = SVF.get_feedback node
       | App.SimpleNode _, App.SimpleNode _ => True
       | _, _ => False
       end.
Proof.
  destruct settings as [[f|] [s|] [q|]], filter as [[o n] | node];
    (eexists; split; [reflexivity | repeat split]).
Qed.

Lemma deliver_three (m1 m2 m3 : Processor.Message) (p : Processor.t) :
  Worklet.deliver [m1; m2; m3] p
  = Processor.onmessage m3 (Processor.onmessage m2 (Processor.onmessage m1 p)).
Proof. reflexivity. Qed.

Lemma band_freqs_in_range (F S : R) (p : Processor.t) :
  80 <= F <= 6000 -> 40 <= S <= 1800 ->
  7800 <= Processor._sampleRate p * 0.45 ->
  Processor._centreFreq p = F -> Processor._span p = S ->
  Processor.band_freqs p = Processor.mkFreqs (Math.max 20 (F - S)) F (F + S).
Proof.
  intros HF HS Hsr EF ES. unfold Processor.band_freqs. rewrite EF, ES.
  set (nyq := Processor._sampleRate p * 0.45) in *.
  assert (C : Math.min nyq (Math.max 20 F) = F) by minmax.
  rewrite C. f_equal; minmax.
Qed.

Lemma alpha2_in_range (Q : R) :
  2 <= Q <= 30 ->
  1 / Math.max 0.0001 Q = 1 / Q /\ 1 / 30 <= 1 / Q <= 1 / 2.
Proof.
  intros HQ.
  assert (M : Math.max 0.0001 Q = Q) by minmax.
  rewrite M. split; [reflexivity |].
  unfold Rdiv. rewrite !Rmult_1_l.
  split; apply Rinv_le_contravar; lra.
Qed.

(** X18.  On the real-time path with a Ready node, one call of
    [applySynthFilterSettings] with all three settings posts centre, span
    and q in this order.  Delivered to a processor whose [0.45·F_s] is at
    least 7800, they put the bands at [max(20, F - S)], [F] and [F + S] for
    the clamped centre [F] and span [S], with no upper clamp in play, and
    the damping at exactly [1/Q] for the clamped q, between 1/30 and 1/2;
    the feedback and the accumulators of the processor are as before. *)
Theorem settings_reach_processor (raw : option R) (f sp qv : R)
    (node : SVF.t) (n : SVF.AudioWorkletNode) (proc : Processor.t) :
  SVF._workletNode node = Some n ->
  7800 <= Processor._sampleRate proc * 0.45 ->
  let F := App.clampFrequency f in
  let S := App.clampSynthFilterSpan sp in
  let Q := App.clampQ qv in
  let posted :=
    Worklet.posted
      (snd (App.applySynthFilterSettings raw
              (App.mkSettings (Some f) (Some sp) (Some qv))
              (Some (App.SVFNode node)))) in
  let proc' := Worklet.deliver posted proc in
  posted = [SVF.update_center F; SVF.update_span S; SVF.update_q Q]
  /\ Processor.band_freqs proc'
     = Processor.mkFreqs (Math.max 20 (F - S)) F (F + S)
  /\ Processor._alpha2 proc' = 1 / Q
  /\ 1 / 30 <= Processor._alpha2 proc' <= 1 / 2
  /\ Processor._feedback proc' = Processor._feedback proc
  /\ Dsp.bands proc' = Dsp.bands proc
  /\ Processor._recalc proc' = true.
Proof.
  intros Hn Hsr F S Q posted proc'.
  destruct node as [o w]. cbn in Hn. subst w.
  assert (P : posted
              = [SVF.update_center F; SVF.update_span S; SVF.update_q Q])
    by reflexivity.
  subst proc'. rewrite P, deliver_three.
  pose proof (clampFrequency_range f) as HF.
  pose proof (clampSynthFilterSpan_range sp) as HS.
  destruct (alpha2_in_range Q (clampQ_range qv)) as [A1 A2].
  fold F in HF. fold S in HS.
  set (p3 := Processor.onmessage _ _).
  assert (E2 : Processor._alpha2 p3 = 1 / Q) by (rewrite <- A1; reflexivity).
  split; [reflexivity | split; [| split; [exact E2 | split]]].
  - apply band_freqs_in_range; try assumption; reflexivity.
  - rewrite E2. exact A2.
  - repeat split.
Qed.

Lemma settings_reach_processor_witness :
  let F := App.clampFrequency 9000 in
  let S := App.clampSynthFilterSpan 5 in
  let Q := App.clampQ 100 in
  let posted :=
    Worklet.posted
      (snd (App.applySynthFilterSettings (Some 48000)
              (App.mkSettings (Some 9000) (Some 5) (Some 100))
              (Some (App.SVFNode Example.ready)))) in
  let proc' := Worklet.deliver posted Example.fresh in
  posted = [SVF.update_center F; SVF.update_span S; SVF.update_q Q]
  /\ Processor.band_freqs proc'
     = Processor.mkFreqs (Math.max 20 (F - S)) F (F + S)
  /\ Processor._alpha2 proc' = 1 / Q
  /\ 1 / 30 <= Processor._alpha2 proc' <= 1 / 2
  /\ Processor._feedback proc' = Processor._feedback Example.fresh
  /\ Dsp.bands proc' = Dsp.bands Example.fresh
  /\ Processor._recalc proc' = true.
Proof.
  apply (settings_reach_processor (Some 48000) 9000 5 100 Example.ready
           (SVF.mkNode SVF.defaults) Example.fresh).
  - reflexivity.
  - cbn. lra.
Defined.

(** With the application's ranges the filter is in the damped region at
    every sample rate above 41.6 kHz: after the three settings have been
    delivered, each band has α₁ + α₂ < 2. *)
Lemma settings_damped (f sp qv : R) (proc : Processor.t) :
  41600 < Processor._sampleRate proc ->
  let proc' :=
    Worklet.deliver
      [SVF.update_center (App.clampFrequency f);
       SVF.update_span (App.clampSynthFilterSpan sp);
       SVF.update_q (App.clampQ qv)] proc in
  let used := Dsp.at_block_start proc' in
  Dsp.damped (Processor._lowAlpha1 used) (Processor._alpha2 used)
  /\ Dsp.damped (Processor._centreAlpha1 used) (Processor._alpha2 used)
  /\ Dsp.damped (Processor._highAlpha1 used) (Processor._alpha2 used).
Proof.
  intros Hsr proc' used.
  pose proof (clampFrequency_range f) as HF.
  pose proof (clampSynthFilterSpan_range sp) as HS.
  destruct (alpha2_in_range _ (clampQ_range qv)) as [A1 A2].
  set (F := App.clampFrequency f) in *.
  set (S := App.clampSynthFilterSpan sp) in *.
  set (Q := App.clampQ qv) in *.
  assert (B : Processor.band_freqs proc'
              = Processor.mkFreqs (Math.max 20 (F - S)) F (F + S)).
  { apply band_freqs_in_range; try assumption; try reflexivity.
    change (Processor._sampleRate proc')
      with (Processor._sampleRate proc). lra. }
  assert (E2 : Processor._alpha2 used = 1 / Q).
  { rewrite <- A1. reflexivity. }
  assert (L : Processor._lowAlpha1 used
              = 2 * Math.sin (Math.PI * Math.max 20 (F - S)
                              / Processor._sampleRate proc)).
  { change (Processor._lowAlpha1 used)
      with (2 * Math.sin (Math.PI * Processor.lowF (Processor.band_freqs proc')
                          / Processor._sampleRate proc)).
    now rewrite B. }
  assert (C : Processor._centreAlpha1 used
              = 2 * Math.sin (Math.PI * F / Processor._sampleRate proc)).
  { change (Processor._centreAlpha1 used)
      with (2 * Math.sin (Math.PI
                          * Processor.centre (Processor.band_freqs proc')
                          / Processor._sampleRate proc)).
    now rewrite B. }
  assert (H : Processor._highAlpha1 used
              = 2 * Math.sin (Math.PI * (F + S)
                              / Processor._sampleRate proc)).
  { change (Processor._highAlpha1 used)
      with (2 * Math.sin (Math.PI * Processor.highF (Processor.band_freqs proc')
                          / Processor._sampleRate proc)).
    now rewrite B. }
  rewrite L, C, H, E2.
  assert (M : 20 <= Math.max 20 (F - S) <= 7800) by (split; minmax).
  split; [| split]; apply damped_when; try lra; nra.
Qed.

(** ** The feedback option *)

Lemma deliver_app (ms1 ms2 : list Processor.Message) (p : Processor.t) :
  Worklet.deliver (ms1 ++ ms2) p = Worklet.deliver ms2 (Worklet.deliver ms1 p).
Proof. apply fold_left_app. Qed.

Lemma posted_app (e1 e2 : list SVF.Effect) :
  Worklet.posted (e1 ++ e2) = Worklet.posted e1 ++ Worklet.posted e2.
Proof. apply flat_map_app. Qed.

(** A message without the feedback field leaves the feedback alone. *)
Lemma onmessage_keeps_feedback (data : Processor.Message) (p : Processor.t) :
  Processor.feedback data = None ->
  Processor._feedback (Processor.onmessage data p) = Processor._feedback p.
Proof.
  intros H. unfold Processor.onmessage.
  destruct (String.eqb (Processor.type data) "update"); [| reflexivity].
  rewrite H. destruct data as [ty [c|] [s|] [qv|] f]; reflexivity.
Qed.

Lemma deliver_keeps_feedback (ms : list Processor.Message) :
  Forall (fun m => Processor.feedback m = None) ms ->
  forall p : Processor.t,
    Processor._feedback (Worklet.deliver ms p) = Processor._feedback p.
Proof.
  induction 1 as [|m ms Hm _ IH]; intros p.
  - reflexivity.
  - cbn [Worklet.deliver fold_left].
    change (fold_left _ ms ?q) with (Worklet.deliver ms q).
    now rewrite IH, onmessage_keeps_feedback.
Qed.

Lemma apply_posts_no_feedback (raw : option R) (settings : App.Settings)
    (synthFilter : option App.SynthFilter) :
  Forall (fun m => Processor.feedback m = None)
    (Worklet.posted
       (snd (App.applySynthFilterSettings raw settings synthFilter))).
Proof.
  destruct synthFilter as [[[o [n|]] | node]|];
    destruct settings as [[f|] [s|] [q|]]; cbn; repeat constructor.
Qed.

Lemma applyMany_posts_no_feedback (raw : option R)
    (many : list App.Settings) :
  forall synthFilter : option App.SynthFilter,
    Forall (fun m => Processor.feedback m = None)
      (Worklet.posted (snd (App.applyMany raw many synthFilter))).
Proof.
  induction many as [|settings many IH]; intros synthFilter.
  - constructor.
  - cbn [App.applyMany snd]. rewrite posted_app. apply Forall_app. split.
    + apply apply_posts_no_feedback.
    + apply IH.
Qed.

(** What one uninterrupted [_initWorklet] on a node as constructed comes
    to.  It completes exactly when it gets as far as creating the node and
    the three calls that follow succeed, and then it has posted nothing.
    When it throws, [dispose] of the node it leaves posts the feedback 0
    if the node had been stored, that is if a [connect] threw, and nothing
    otherwise. *)
Lemma init_outcome (context : option SVF.Context) (loaded : bool)
    (host : SVF.InitHost) (node : SVF.t) :
  SVF._workletNode node = None ->
  let r := SVF._initWorklet context loaded host node in
  let go := SVF.supported context && (loaded || SVF.addModuleOk host) in
  let created := SVF.newNodeOk host && SVF.connectInputOk host
                 && SVF.connectOutputOk host in
  snd r = loaded || (SVF.supported context && SVF.addModuleOk host)
  /\ match fst r with
     | SVF.Normal n e =>
         go = true /\ created = true
         /\ n = SVF.mk (SVF._options node)
                  (Some (SVF.mkNode (SVF._options node)))
         /\ Worklet.posted e = []
     | SVF.Throw _ n e =>
         (go = false \/ created = false)
         /\ Worklet.posted (e ++ snd (SVF.dispose n))
            = if go && SVF.newNodeOk host
                 && negb (SVF.connectInputOk host && SVF.connectOutputOk host)
              then [SVF.update_feedback 0] else []
     end.
Proof.
  intros Hn. destruct node as [o n]. cbn in Hn. subst n.
  unfold SVF._initWorklet, SVF._initWorklet_start, SVF._initWorklet_resume,
    SVF._initWorklet_node.
  destruct context as [[i []]|], loaded, host as [[] [] [] []]; cbn;
    repeat split; auto.
Qed.

(** What [generateSoundscape] posts while it builds the filter: nothing
    that carries a feedback when it ends with a [ThreeSistersSVF]; when it
    ends with the bank, the feedback 0 that [dispose] posts to the node it
    gives up, or nothing at all. *)
Lemma generate_posts (heap : AudioContext.Heap)
    (raw : option AudioContext.ref) (workletNodeDefined loaded : bool)
    (host : SVF.InitHost) (params : App.Params) :
  let built := App.generateSoundscape_synthFilter heap raw
                 workletNodeDefined loaded host params in
  match App.synthFilter built with
  | App.SVFNode node =>
      SVF.get_feedback node = 0.08
      /\ Forall (fun m => Processor.feedback m = None)
           (Worklet.posted (App.effects built))
  | App.SimpleNode _ =>
      Worklet.posted (App.effects built)
      = if App.given_up heap raw workletNodeDefined loaded host
        then [SVF.update_feedback 0] else []
  end.
Proof.
  unfold App.generateSoundscape_synthFilter, App.given_up.
  assert (S : App.canUseThreeSistersSVF heap raw workletNodeDefined = true ->
              SVF.supported (App.audioContext heap raw) = true).
  { unfold App.canUseThreeSistersSVF.
    destruct raw as [r|]; [| discriminate]. cbn.
    destruct (AudioContext.audioWorklet (heap r)); [reflexivity |].
    discriminate. }
  destruct (App.canUseThreeSistersSVF heap raw workletNodeDefined).
  - set (node := SVF.constructor _).
    pose proof (init_outcome (App.audioContext heap raw) loaded host node
                  eq_refl) as [_ O].
    cbv zeta in O. rewrite (S eq_refl) in O.
    destruct (SVF._initWorklet (App.audioContext heap raw) loaded host node)
      as [[n e | x n e] l]; cbn [fst] in O.
    + destruct O as (_ & _ & -> & P). cbn. rewrite posted_app, P. cbn.
      split; [reflexivity | repeat constructor].
    + destruct O as (_ & P). cbn. rewrite app_nil_r. exact P.
  - reflexivity.
Qed.

(** The bank posts nothing, and stays the bank. *)
Lemma applyMany_bank (raw : option R) (many : list App.Settings) :
  forall bank : Simple.t,
    Worklet.posted (snd (App.applyMany raw many (Some (App.SimpleNode bank))))
    = [].
Proof.
  induction many as [|settings many IH]; intros bank.
  - reflexivity.
  - cbn [App.applyMany snd fst]. rewrite posted_app.
    cbn [App.applySynthFilterSettings fst snd Worklet.posted flat_map app].
    apply IH.
Qed.

(** Messages that carry no feedback, or the feedback 0. *)
Lemma no_feedback_or_zero (ms : list Processor.Message) :
  Forall (fun m => Processor.feedback m = None) ms ->
  Forall (fun m => Processor.feedback m = None
                   \/ Processor.feedback m = Some 0) ms.
Proof. intros H. eapply Forall_impl; [| exact H]. intros m E. now left. Qed.

(** X19.  The feedback given to the constructor of the node never reaches the
    processor.  When [generateSoundscape] ends with a [ThreeSistersSVF],
    the node reports the feedback 0.08, but neither building it nor any
    number of later calls of [applySynthFilterSettings] posts a message that
    carries a feedback: once all their messages are delivered, the
    processor has the feedback it had before, 0.05 if it was just
    constructed.  When it ends with the bank, nothing is posted at all,
    except for the feedback 0 that [dispose] posts to a node that is given
    up because a [connect] threw after the node was stored.  So, whatever
    the host answers, no message carries a feedback other than 0. *)
Theorem feedback_option_never_sent (heap : AudioContext.Heap)
    (raw : option AudioContext.ref) (workletNodeDefined loaded : bool)
    (host : SVF.InitHost) (params : App.Params)
    (later : list App.Settings) (sampleRate : R) (proc : Processor.t) :
  let built := App.generateSoundscape_synthFilter heap raw
                 workletNodeDefined loaded host params in
  let rate := option_map (fun r => AudioContext.sampleRate (heap r)) raw in
  let after := App.applyMany rate later (Some (App.synthFilter built)) in
  let messages := Worklet.posted (App.effects built ++ snd after) in
  (forall node, App.synthFilter built = App.SVFNode node ->
     SVF.get_feedback node = 0.08
     /\ Processor._feedback (Worklet.deliver messages proc)
        = Processor._feedback proc
     /\ Processor._feedback
          (Worklet.deliver messages (Processor.constructor sampleRate))
        = 0.05)
  /\ (forall bank, App.synthFilter built = App.SimpleNode bank ->
        messages = if App.given_up heap raw workletNodeDefined loaded host
                   then [SVF.update_feedback 0] else [])
  /\ Forall (fun m => Processor.feedback m = None
                      \/ Processor.feedback m = Some 0) messages.
Proof.
  intros built rate after messages.
  pose proof (generate_posts heap raw workletNodeDefined loaded host params)
    as G.
  cbv zeta in G. fold built in G.
  pose proof (applyMany_posts_no_feedback rate later
                (Some (App.synthFilter built))) as A.
  fold after in A.
  assert (B : forall bank, App.synthFilter built = App.SimpleNode bank ->
                messages = if App.given_up heap raw workletNodeDefined loaded host
                           then [SVF.update_feedback 0] else []).
  { intros bank E. unfold messages, after. rewrite posted_app.
    rewrite E in G |- *. rewrite G, applyMany_bank. apply app_nil_r. }
  split; [| split; [exact B |]].
  - intros node E. rewrite E in G. destruct G as [G1 G2].
    assert (F : Forall (fun m => Processor.feedback m = None) messages).
    { unfold messages. rewrite posted_app. apply Forall_app. now split. }
    split; [exact G1 | split].
    + now apply deliver_keeps_feedback.
    + now rewrite deliver_keeps_feedback.
  - destruct (App.synthFilter built) as [node | bank] eqn:E.
    + unfold messages. rewrite posted_app. apply Forall_app.
      split; apply no_feedback_or_zero; [apply G | exact A].
    + rewrite (B bank eq_refl).
      destruct (App.given_up heap raw workletNodeDefined loaded host);
        [| constructor].
      constructor; [right; reflexivity | constructor].
Qed.

(** ** Choosing the implementation *)

(** Clamping twice is clamping once. *)
Lemma clampFrequency_idempotent (f : R) :
  App.clampFrequency (App.clampFrequency f) = App.clampFrequency f.
Proof.
  unfold App.clampFrequency, App.SYNTH_FILTER_FREQUENCY_MIN,
    App.SYNTH_FILTER_FREQUENCY_MAX. minmax.
Qed.

Lemma clampSynthFilterSpan_idempotent (s : R) :
  App.clampSynthFilterSpan (App.clampSynthFilterSpan s)
  = App.clampSynthFilterSpan s.
Proof.
  unfold App.clampSynthFilterSpan, App.SYNTH_FILTER_SPAN_MIN,
    App.SYNTH_FILTER_SPAN_MAX. minmax.
Qed.

Lemma clampQ_idempotent (q : R) : App.clampQ (App.clampQ q) = App.clampQ q.
Proof.
  unfold App.clampQ, App.SYNTH_FILTER_Q_MIN, App.SYNTH_FILTER_Q_MAX. minmax.
Qed.

(** X20.  [generateSoundscape] always ends with a filter.  It is a Ready
    [ThreeSistersSVF] exactly when the probe [canUseThreeSistersSVF]
    succeeded, the processor module was flagged as loaded or [addModule]
    resolves, and the constructor of the AudioWorkletNode and the two
    [connect] calls return; in every other case it is a
    [SimpleThreeBandFilter].  After the probe has succeeded the node never
    refuses for lack of AudioWorklet.  Either way the filter reports the
    clamped centre, span and q of the parameters, with 12 for a missing q.
    The flag is set at the end exactly when it was set before or the probe
    succeeded and [addModule] resolves, also when the node is given up. *)
Theorem filter_is_always_built (heap : AudioContext.Heap)
    (raw : option AudioContext.ref) (workletNodeDefined loaded : bool)
    (host : SVF.InitHost) (params : App.Params) :
  let built := App.generateSoundscape_synthFilter heap raw
                 workletNodeDefined loaded host params in
  let probe := App.canUseThreeSistersSVF heap raw workletNodeDefined in
  let created := SVF.newNodeOk host && SVF.connectInputOk host
                 && SVF.connectOutputOk host in
  match App.synthFilter built with
  | App.SVFNode node =>
      probe = true /\ (loaded = true \/ SVF.addModuleOk host = true)
      /\ created = true
      /\ SVF._workletNode node <> None
      /\ App.workletLoaded built = true
  | App.SimpleNode _ =>
      (probe = false \/ (loaded = false /\ SVF.addModuleOk host = false)
       \/ created = false)
      /\ App.workletLoaded built = loaded || (probe && SVF.addModuleOk host)
  end
  /\ (probe = true -> App.workletSupported heap raw = true)
  /\ App.center (App.synthFilter built)
     = App.clampFrequency (App.synthFilterFrequency params)
  /\ App.span_of (App.synthFilter built)
     = App.clampSynthFilterSpan (App.synthFilterSpan params)
  /\ App.q_of (App.synthFilter built)
     = App.clampQ (match App.synthFilterQ params with
                   | Some v => v
                   | None => App.SYNTH_FILTER_DEFAULT_Q
                   end).
Proof.
  intros built probe created.
  assert (S : probe = true -> App.workletSupported heap raw = true).
  { unfold probe, App.canUseThreeSistersSVF, App.workletSupported.
    destruct raw as [r|]; [| discriminate].
    destruct (AudioContext.audioWorklet (heap r)); [reflexivity |].
    discriminate. }
  assert (S' : SVF.supported (App.audioContext heap raw)
               = App.workletSupported heap raw).
  { destruct raw; reflexivity. }
  unfold built, App.generateSoundscape_synthFilter.
  fold probe. destruct probe eqn:P.
  - set (node := SVF.constructor _).
    pose proof (init_outcome (App.audioContext heap raw) loaded host node
                  eq_refl) as [F O].
    cbv zeta in F, O. rewrite S', (S eq_refl) in F, O. fold created in O.
    cbn [andb] in F, O.
    destruct (SVF._initWorklet (App.audioContext heap raw) loaded host node)
      as [[n e | x n e] l]; cbn [fst snd] in F, O.
    + destruct O as (G & C & -> & _). subst l. cbn.
      split; [| split; [exact S | split; [| split]]].
      * split; [reflexivity | split; [| split; [exact C |]]].
        -- apply orb_true_iff. exact G.
        -- split; [discriminate | exact G].
      * apply clampFrequency_idempotent.
      * apply clampSynthFilterSpan_idempotent.
      * apply clampQ_idempotent.
    + destruct O as (G & _). subst l. cbn.
      split; [| split; [exact S | split; [| split]]].
      * split; [| reflexivity].
        destruct G as [G | G]; [| right; right; exact G].
        apply orb_false_iff in G. right. left. exact G.
      * apply clampFrequency_idempotent.
      * apply clampSynthFilterSpan_idempotent.
      * apply clampQ_idempotent.
  - cbn. split; [| split; [discriminate | split; [| split]]].
    + split; [left; reflexivity | now rewrite orb_false_r].
    + apply clampFrequency_idempotent.
    + apply clampSynthFilterSpan_idempotent.
    + apply clampQ_idempotent.
Qed.

(** ** Dry and wet *)



(** ** Mapping slider values *)

Lemma mapValue_affine (v a b c d : R) :
  a <> b ->
  Utils.mapValue v a b c d = c + (v - a) / (b - a) * (d - c).
Proof.
  intros H. unfold Utils.mapValue. field. lra.
Qed.

(** X22.  In exact arithmetic only (the formula of [mapValue] read over the
    real numbers; on doubles rounding can move an end point or take a value
    just outside the range), [mapValue] takes the ends of the
    input range to the ends of the output range, keeps the order of values
    when both ranges go upwards, and so keeps values of the input range
    within the output range. *)
Theorem mapValue_range (v w a b c d : R) :
  a < b -> c <= d ->
  Utils.mapValue a a b c d = c
  /\ Utils.mapValue b a b c d = d
  /\ (v <= w -> Utils.mapValue v a b c d <= Utils.mapValue w a b c d)
  /\ (a <= v <= b -> c <= Utils.mapValue v a b c d <= d).
Proof.
  intros Hab Hcd.
  assert (Hne : a <> b) by lra.
  assert (Hi : 0 < / (b - a)) by (apply Rinv_0_lt_compat; lra).
  assert (Hone : (b - a) * / (b - a) = 1) by (apply Rinv_r; lra).
  rewrite !mapValue_affine by exact Hne.
  unfold Rdiv. set (i := / (b - a)) in *.
  assert (Mono : forall x y, x <= y ->
                 c + (x - a) * i * (d - c) <= c + (y - a) * i * (d - c)).
  { intros x y Hxy.
    assert ((x - a) * i <= (y - a) * i) by (apply Rmult_le_compat_r; lra).
    nra. }
  assert (Ea : c + (a - a) * i * (d - c) = c) by ring.
  assert (Eb : c + (b - a) * i * (d - c) = d) by (rewrite Hone; ring).
  split; [exact Ea | split; [exact Eb | split]].
  - apply Mono.
  - intros [H1 H2]. split.
    + rewrite <- Ea at 1. now apply Mono.
    + rewrite <- Eb at 2. now apply Mono.
Qed.

Lemma mapValue_range_witness :
  Utils.mapValue 0 0 1 (-72) (-18) = -72
  /\ Utils.mapValue 1 0 1 (-72) (-18) = -18
  /\ (0.25 <= 0.5 ->
      Utils.mapValue 0.25 0 1 (-72) (-18) <= Utils.mapValue 0.5 0 1 (-72) (-18))
  /\ (0 <= 0.25 <= 1 -> -72 <= Utils.mapValue 0.25 0 1 (-72) (-18) <= -18).
Proof.
  apply (mapValue_range 0.25 0.5 0 1 (-72) (-18)); lra.
Defined.

(** X23.  In exact arithmetic only (the formula of [mapValue] read over the
    real numbers; on doubles the result can differ from the value by
    rounding), mapping a value to the output range
    and back, with the two ranges exchanged, gives the value again, when
    neither range is a single point. *)
Theorem mapValue_round_trip (v a b c d : R) :
  a <> b -> c <> d ->
  Utils.mapValue (Utils.mapValue v a b c d) c d a b = v.
Proof.
  intros Hab Hcd. unfold Utils.mapValue. field. lra.
Qed.

Lemma mapValue_round_trip_witness :
  Utils.mapValue (Utils.mapValue 3 0 8 0 0.5) 0 0.5 0 8 = 3.
Proof.
  apply (mapValue_round_trip 3 0 8 0 0.5); lra.
Defined.

(** X24.  Whatever number the slider gives, the frequency of the layer filter
    is between 40 and 12000 Hz, it does not fall when the value rises, and
    the ends 0 and 1 give 40 and 12000 Hz. *)
Theorem mapLayerFilterValue_range (v w : R) :
  40 <= Utils.mapLayerFilterValue v <= 12000
  /\ (v <= w -> Utils.mapLayerFilterValue v <= Utils.mapLayerFilterValue w)
  /\ Utils.mapLayerFilterValue 0 = 40
  /\ Utils.mapLayerFilterValue 1 = 12000.
Proof.
  unfold Utils.mapLayerFilterValue, Utils.LAYER_FILTER_MAX_FREQ,
    Utils.LAYER_FILTER_MIN_FREQ.
  cbv zeta.
  replace (12000 / 40) with 300 by lra.
  assert (P0 : Rpower 300 0 = 1) by (apply Rpower_O; lra).
  assert (P1 : Rpower 300 1 = 300) by (apply Rpower_1; lra).
  assert (Mono : forall x y, x <= y -> Rpower 300 x <= Rpower 300 y).
  { intros x y Hxy. apply Rle_Rpower; lra. }
  assert (C : forall x, 0 <= Math.min (Math.max x 0) 1 <= 1).
  { intros x. split; minmax. }
  assert (CM : forall x y, x <= y ->
               Math.min (Math.max x 0) 1 <= Math.min (Math.max y 0) 1).
  { intros x y Hxy. minmax. }
  assert (E0 : Math.min (Math.max 0 0) 1 = 0) by minmax.
  assert (E1 : Math.min (Math.max 1 0) 1 = 1) by minmax.
  split; [| split; [| split]].
  - destruct (C v) as [L U].
    pose proof (Mono _ _ L). pose proof (Mono _ _ U). lra.
  - intros Hvw. pose proof (Mono _ _ (CM v w Hvw)). lra.
  - rewrite E0, P0. lra.
  - rewrite E1, P1. lra.
Qed.

Lemma mapLayerFilterValue_range_witness :
  40 <= Utils.mapLayerFilterValue 0.3 <= 12000
  /\ (0.3 <= 0.7 ->
      Utils.mapLayerFilterValue 0.3 <= Utils.mapLayerFilterValue 0.7)
  /\ Utils.mapLayerFilterValue 0 = 40
  /\ Utils.mapLayerFilterValue 1 = 12000.
Proof.
  exact (mapLayerFilterValue_range 0.3 0.7).
Defined.

Lemma feedback_option_never_sent_witness :
  let built := App.generateSoundscape_synthFilter Host.heap (Some 2%nat)
                 true false Host.willing Host.params in
  let rate := option_map (fun r => AudioContext.sampleRate (Host.heap r))
                (Some 2%nat) in
  let after := App.applyMany rate
                 [App.mkSettings (Some 500) None None;
                  App.mkSettings None (Some 90) (Some 4)]
                 (Some (App.synthFilter built)) in
  let messages := Worklet.posted (App.effects built ++ snd after) in
  (forall node, App.synthFilter built = App.SVFNode node ->
     SVF.get_feedback node = 0.08
     /\ Processor._feedback (Worklet.deliver messages Example.struck)
        = Processor._feedback Example.struck
     /\ Processor._feedback
          (Worklet.deliver messages (Processor.constructor 48000))
        = 0.05)
  /\ (forall bank, App.synthFilter built = App.SimpleNode bank ->
        messages = if App.given_up Host.heap (Some 2%nat) true false
                        Host.willing
                   then [SVF.update_feedback 0] else [])
  /\ Forall (fun m => Processor.feedback m = None
                      \/ Processor.feedback m = Some 0) messages.
Proof.
  exact (feedback_option_never_sent Host.heap (Some 2%nat) true false
           Host.willing Host.params
           [App.mkSettings (Some 500) None None;
            App.mkSettings None (Some 90) (Some 4)]
           48000 Example.struck).
Defined.

Lemma filter_is_always_built_witness :
  let built := App.generateSoundscape_synthFilter Host.heap (Some 2%nat)
                 true false Host.unconnected Host.params in
  let probe := App.canUseThreeSistersSVF Host.heap (Some 2%nat) true in
  let created := SVF.newNodeOk Host.unconnected
                 && SVF.connectInputOk Host.unconnected
                 && SVF.connectOutputOk Host.unconnected in
  match App.synthFilter built with
  | App.SVFNode node =>
      probe = true
      /\ (false = true \/ SVF.addModuleOk Host.unconnected = true)
      /\ created = true
      /\ SVF._workletNode node <> None
      /\ App.workletLoaded built = true
  | App.SimpleNode _ =>
      (probe = false
       \/ (false = false /\ SVF.addModuleOk Host.unconnected = false)
       \/ created = false)
      /\ App.workletLoaded built
         = false || (probe && SVF.addModuleOk Host.unconnected)
  end
  /\ (probe = true -> App.workletSupported Host.heap (Some 2%nat) = true)
  /\ App.center (App.synthFilter built)
     = App.clampFrequency (App.synthFilterFrequency Host.params)
  /\ App.span_of (App.synthFilter built)
     = App.clampSynthFilterSpan (App.synthFilterSpan Host.params)
  /\ App.q_of (App.synthFilter built)
     = App.clampQ (match App.synthFilterQ Host.params with
                   | Some v => v
                   | None => App.SYNTH_FILTER_DEFAULT_Q
                   end).
Proof.
  exact (filter_is_always_built Host.heap (Some 2%nat) true false
           Host.unconnected Host.params).
Defined.
